(** * Waybar audio backend (util/audio_backend.cpp): model and properties

    A shallow embedding of [waybar::util::AudioBackend], the PulseAudio
    client behind Waybar's audio modules: the subscription dispatcher,
    the sink/source/server info callbacks, the two [changeVolume]
    overloads and the mute toggles.

    Conventions.
    - C++ unsigned integers are [Z] with the wrap-around written out.
    - [float] and [double] are IEEE 754 binary32 / binary64, each
      operation rounded to nearest-even in the type of its operands,
      computed with the Standard Library's executable specification
      [SpecFloat].
    - Every callback and entry point is a function from the backend
      object to the new backend object and the list of observable
      effects it performed, in order (libpulse calls, log lines, the
      update notification, main-loop lock and unlock). *)

From Stdlib Require Import ZArith Bool List String Lia.
From Stdlib Require Import Floats.SpecFloat.
From stdpp Require Import base list.
Import ListNotations.

Local Open Scope string_scope.
Local Open Scope Z_scope.

(** ** IEEE 754 arithmetic as the C++ code uses it *)

Module IEEE.

Section Format.
Variables prec emax : Z.

(** Integer to floating point, round to nearest even. *)
Definition of_Z (n : Z) : spec_float := binary_normalize prec emax n 0 false.

(** Integer part of a finite value, rounded toward zero
    (the C++ floating-to-integer conversion). *)
Definition trunc_Z (x : spec_float) : option Z :=
  match x with
  | S754_zero _ => Some 0
  | S754_finite s m e =>
      Some (cond_Zopp s (if e <? 0 then Z.shiftr (Z.pos m) (- e)
                         else Z.shiftl (Z.pos m) e))
  | _ => None
  end.

(** Nearest integer, halfway cases away from zero ([round],
    [std::round]): for a magnitude [m / 2^k] with [k >= 1] this is
    [floor ((m + 2^(k-1)) / 2^k)]. *)
Definition round_away_Z (x : spec_float) : option Z :=
  match x with
  | S754_zero _ => Some 0
  | S754_finite s m e =>
      Some (cond_Zopp s (if e <? 0
                         then Z.shiftr (Z.pos m + Z.shiftl 1 (- e - 1)) (- e)
                         else Z.shiftl (Z.pos m) e))
  | _ => None
  end.

(** [round] returns a floating-point value again. *)
Definition round (x : spec_float) : spec_float :=
  match x with
  | S754_finite s m e =>
      if e <? 0 then
        match round_away_Z x with
        | Some n => binary_normalize prec emax n 0 s
        | None => x
        end
      else x
  | _ => x
  end.

Definition mul := SFmul prec emax.
Definition div := SFdiv prec emax.
Definition add := SFadd prec emax.
Definition sub := SFsub prec emax.
End Format.

(** [a < b] and [a > b]; both are false when an operand is NaN. *)
Definition ltb (a b : spec_float) : bool := SFltb a b.
Definition gtb (a b : spec_float) : bool := SFltb b a.

(** Conversion of a floating-point value to an unsigned integer of
    [w] bits.  In range this is truncation toward zero.  Out of range
    (negative, too large, infinite, NaN) the C++ standard leaves the
    conversion undefined; the model takes the integer part modulo
    [2^w] and 0 for infinities and NaN.  The properties below hold for
    any such choice, and the concrete evaluations stay in range. *)
Definition to_unsigned (w : Z) (x : spec_float) : Z :=
  match trunc_Z x with
  | Some n => n mod 2 ^ w
  | None => 0
  end.

End IEEE.

(** [float] *)
Module F32.
Definition prec := 24.
Definition emax := 128.
Definition of_Z := IEEE.of_Z prec emax.
Definition mul := IEEE.mul prec emax.
Definition div := IEEE.div prec emax.
Definition round := IEEE.round prec emax.
End F32.

(** [double] *)
Module F64.
Definition prec := 53.
Definition emax := 1024.
Definition of_Z := IEEE.of_Z prec emax.
Definition mul := IEEE.mul prec emax.
Definition div := IEEE.div prec emax.
Definition add := IEEE.add prec emax.
Definition sub := IEEE.sub prec emax.
Definition round := IEEE.round prec emax.
End F64.

Definition uint16_of_float (x : spec_float) : Z := IEEE.to_unsigned 16 x.
Definition uint32_of_float (x : spec_float) : Z := IEEE.to_unsigned 32 x.

(** Unsigned wrap-around. *)
Definition wrap16 (n : Z) : Z := n mod 2 ^ 16.
Definition wrap32 (n : Z) : Z := n mod 2 ^ 32.

(** ** libpulse: the declarations the backend uses

    These come from the PulseAudio client headers ([pulse/volume.h],
    [pulse/def.h], [pulse/sample.h], [pulse/subscribe.h]) and from
    [pulse/volume.c]; they are part of the library, not of Waybar. *)

Definition PA_VOLUME_NORM : Z := 0x10000.
Definition PA_VOLUME_MUTED : Z := 0.
Definition UINT32_MAX : Z := 4294967295.
Definition PA_VOLUME_MAX : Z := UINT32_MAX / 2.
Definition PA_VOLUME_INVALID : Z := UINT32_MAX.
Definition PA_CHANNELS_MAX : Z := 32.

(** [PA_VOLUME_UI_MAX] is [pa_sw_volume_from_dB(+11.0)], that is
    [lround(cbrt(pow(10, 11/20)) * PA_VOLUME_NORM)]. *)
Definition PA_VOLUME_UI_MAX : Z := 99957.

Definition PA_VOLUME_IS_VALID (v : Z) : bool := v <=? PA_VOLUME_MAX.

(** [pa_cvolume]: a channel count ([uint8_t]) and an array of
    [PA_CHANNELS_MAX] volumes ([uint32_t]). *)
Record pa_cvolume := mk_cvolume {
  channels : Z;
  values : list Z
}.

(** [pa_cvolume_init]: no channel, every slot invalid. *)
Definition pa_cvolume_init : pa_cvolume :=
  {| channels := 0;
     values := replicate (Z.to_nat PA_CHANNELS_MAX) PA_VOLUME_INVALID |}.

Definition pa_channels_valid (c : Z) : bool :=
  (0 <? c) && (c <=? PA_CHANNELS_MAX).

(** The first [channels] slots of the array. *)
Definition used_values (v : pa_cvolume) : list Z :=
  take (Z.to_nat (channels v)) (values v).

Definition pa_cvolume_valid (v : pa_cvolume) : bool :=
  pa_channels_valid (channels v) && forallb PA_VOLUME_IS_VALID (used_values v).

Definition sum_values (l : list Z) : Z := fold_left Z.add l 0.

(** [pa_cvolume_avg]: the 64-bit sum of the channels divided by their
    number; [PA_VOLUME_MUTED] for an invalid structure. *)
Definition pa_cvolume_avg (v : pa_cvolume) : Z :=
  if pa_cvolume_valid v then sum_values (used_values v) / channels v
  else PA_VOLUME_MUTED.

Inductive pa_context_state_t :=
| PA_CONTEXT_UNCONNECTED
| PA_CONTEXT_CONNECTING
| PA_CONTEXT_AUTHORIZING
| PA_CONTEXT_SETTING_NAME
| PA_CONTEXT_READY
| PA_CONTEXT_FAILED
| PA_CONTEXT_TERMINATED.

Inductive pa_sink_state_t :=
| PA_SINK_INVALID_STATE
| PA_SINK_RUNNING
| PA_SINK_IDLE
| PA_SINK_SUSPENDED.

(** [pa_subscription_event_type_t] is a bit field: facility in the low
    four bits, operation in bits 4 and 5. *)
Definition PA_SUBSCRIPTION_EVENT_SINK : Z := 0x0000.
Definition PA_SUBSCRIPTION_EVENT_SOURCE : Z := 0x0001.
Definition PA_SUBSCRIPTION_EVENT_SINK_INPUT : Z := 0x0002.
Definition PA_SUBSCRIPTION_EVENT_SOURCE_OUTPUT : Z := 0x0003.
Definition PA_SUBSCRIPTION_EVENT_MODULE : Z := 0x0004.
Definition PA_SUBSCRIPTION_EVENT_CLIENT : Z := 0x0005.
Definition PA_SUBSCRIPTION_EVENT_SAMPLE_CACHE : Z := 0x0006.
Definition PA_SUBSCRIPTION_EVENT_SERVER : Z := 0x0007.
Definition PA_SUBSCRIPTION_EVENT_CARD : Z := 0x0009.
Definition PA_SUBSCRIPTION_EVENT_FACILITY_MASK : Z := 0x000F.
Definition PA_SUBSCRIPTION_EVENT_NEW : Z := 0x0000.
Definition PA_SUBSCRIPTION_EVENT_CHANGE : Z := 0x0010.
Definition PA_SUBSCRIPTION_EVENT_REMOVE : Z := 0x0020.
Definition PA_SUBSCRIPTION_EVENT_TYPE_MASK : Z := 0x0030.

(** The fields of [pa_sink_info], [pa_source_info] and [pa_server_info]
    the callbacks read.  [active_port] is the port's name, [None] for a
    null pointer; [form_factor] is the [device.form_factor] property. *)
Record pa_sink_info := mk_sink_info {
  si_name : string;
  si_index : Z;
  si_description : string;
  si_state : pa_sink_state_t;
  si_volume : pa_cvolume;
  si_mute : Z;
  si_monitor_source_name : string;
  si_active_port : option string;
  si_form_factor : option string
}.

Record pa_source_info := mk_source_info {
  so_name : string;
  so_index : Z;
  so_description : string;
  so_volume : pa_cvolume;
  so_mute : Z;
  so_active_port : option string
}.

Record pa_server_info := mk_server_info {
  sv_default_sink_name : string;
  sv_default_source_name : string
}.

(** ** Observable effects *)

(** The completion callback handed to an asynchronous request. *)
Inductive callback :=
| cb_serverInfoCb
| cb_sinkInfoCb
| cb_sourceInfoCb
| cb_volumeModifyCb
| cb_nullptr.

Inductive level := lvl_trace | lvl_debug | lvl_error.

Inductive effect :=
| pa_context_get_server_info (cb : callback)
| pa_context_get_sink_info_by_index (idx : Z) (cb : callback)
| pa_context_get_sink_info_list (cb : callback)
| pa_context_get_source_info_by_index (idx : Z) (cb : callback)
| pa_context_get_source_info_list (cb : callback)
| pa_context_set_sink_volume_by_index (idx : Z) (v : pa_cvolume) (cb : callback)
| pa_context_set_sink_mute_by_index (idx : Z) (mute : Z) (cb : callback)
| pa_context_set_source_mute_by_index (idx : Z) (mute : Z) (cb : callback)
| pa_threaded_mainloop_lock
| pa_threaded_mainloop_unlock
| spdlog (l : level) (msg : string)
| on_updated_cb_.

(** An effect that hands a request to the server connection. *)
Definition is_request (e : effect) : bool :=
  match e with
  | pa_context_get_server_info _
  | pa_context_get_sink_info_by_index _ _
  | pa_context_get_sink_info_list _
  | pa_context_get_source_info_by_index _ _
  | pa_context_get_source_info_list _
  | pa_context_set_sink_volume_by_index _ _ _
  | pa_context_set_sink_mute_by_index _ _ _
  | pa_context_set_source_mute_by_index _ _ _ => true
  | _ => false
  end.

Definition requests (t : list effect) : list effect :=
  List.filter is_request t.

Definition is_notification (e : effect) : bool :=
  match e with on_updated_cb_ => true | _ => false end.

Definition notifications (t : list effect) : list effect :=
  List.filter is_notification t.

(** ** The backend object *)

(** Modelled from the spec: the class declaration
    (util/audio_backend.hpp) is not among the sources, so the member
    types are read off the member functions and the data model of the
    specification: the percentages [volume_] and [source_volume_] are
    unsigned 16-bit integers like the [volume] parameters of
    [changeVolume], the device indices unsigned 32-bit integers, the
    names and descriptions [std::string], and [ignored_sinks_] a vector
    of strings.  [context_] is the connection handle: [None] for a null
    pointer, otherwise the state [pa_context_get_state] reports for it. *)
Record AudioBackend := mk_backend {
  context_ : option pa_context_state_t;
  pa_volume_ : pa_cvolume;
  sink_idx_ : Z;
  volume_ : Z;
  muted_ : bool;
  port_name_ : string;
  form_factor_ : string;
  desc_ : string;
  monitor_ : string;
  current_sink_name_ : string;
  default_sink_name : string;
  default_sink_running_ : bool;
  current_sink_running_ : bool;
  source_idx_ : Z;
  source_volume_ : Z;
  source_muted_ : bool;
  source_port_name_ : string;
  source_desc_ : string;
  default_source_name_ : string;
  ignored_sinks_ : list string
}.

(** Assignments to single members. *)
Definition set_pa_volume_ (x : pa_cvolume) (b : AudioBackend) : AudioBackend :=
  mk_backend (context_ b) x (sink_idx_ b) (volume_ b) (muted_ b) (port_name_ b)
    (form_factor_ b) (desc_ b) (monitor_ b) (current_sink_name_ b)
    (default_sink_name b) (default_sink_running_ b) (current_sink_running_ b)
    (source_idx_ b) (source_volume_ b) (source_muted_ b) (source_port_name_ b)
    (source_desc_ b) (default_source_name_ b) (ignored_sinks_ b).

Definition set_sink_idx_ (x : Z) (b : AudioBackend) : AudioBackend :=
  mk_backend (context_ b) (pa_volume_ b) x (volume_ b) (muted_ b) (port_name_ b)
    (form_factor_ b) (desc_ b) (monitor_ b) (current_sink_name_ b)
    (default_sink_name b) (default_sink_running_ b) (current_sink_running_ b)
    (source_idx_ b) (source_volume_ b) (source_muted_ b) (source_port_name_ b)
    (source_desc_ b) (default_source_name_ b) (ignored_sinks_ b).

Definition set_volume_ (x : Z) (b : AudioBackend) : AudioBackend :=
  mk_backend (context_ b) (pa_volume_ b) (sink_idx_ b) x (muted_ b) (port_name_ b)
    (form_factor_ b) (desc_ b) (monitor_ b) (current_sink_name_ b)
    (default_sink_name b) (default_sink_running_ b) (current_sink_running_ b)
    (source_idx_ b) (source_volume_ b) (source_muted_ b) (source_port_name_ b)
    (source_desc_ b) (default_source_name_ b) (ignored_sinks_ b).

Definition set_muted_ (x : bool) (b : AudioBackend) : AudioBackend :=
  mk_backend (context_ b) (pa_volume_ b) (sink_idx_ b) (volume_ b) x (port_name_ b)
    (form_factor_ b) (desc_ b) (monitor_ b) (current_sink_name_ b)
    (default_sink_name b) (default_sink_running_ b) (current_sink_running_ b)
    (source_idx_ b) (source_volume_ b) (source_muted_ b) (source_port_name_ b)
    (source_desc_ b) (default_source_name_ b) (ignored_sinks_ b).

(** The four descriptive strings of the current sink, copied together. *)
Definition set_sink_strings (port ff desc mon : string) (b : AudioBackend)
  : AudioBackend :=
  mk_backend (context_ b) (pa_volume_ b) (sink_idx_ b) (volume_ b) (muted_ b) port
    ff desc mon (current_sink_name_ b)
    (default_sink_name b) (default_sink_running_ b) (current_sink_running_ b)
    (source_idx_ b) (source_volume_ b) (source_muted_ b) (source_port_name_ b)
    (source_desc_ b) (default_source_name_ b) (ignored_sinks_ b).

Definition set_current_sink_name_ (x : string) (b : AudioBackend) : AudioBackend :=
  mk_backend (context_ b) (pa_volume_ b) (sink_idx_ b) (volume_ b) (muted_ b)
    (port_name_ b) (form_factor_ b) (desc_ b) (monitor_ b) x
    (default_sink_name b) (default_sink_running_ b) (current_sink_running_ b)
    (source_idx_ b) (source_volume_ b) (source_muted_ b) (source_port_name_ b)
    (source_desc_ b) (default_source_name_ b) (ignored_sinks_ b).

Definition set_default_sink_name (x : string) (b : AudioBackend) : AudioBackend :=
  mk_backend (context_ b) (pa_volume_ b) (sink_idx_ b) (volume_ b) (muted_ b)
    (port_name_ b) (form_factor_ b) (desc_ b) (monitor_ b) (current_sink_name_ b)
    x (default_sink_running_ b) (current_sink_running_ b)
    (source_idx_ b) (source_volume_ b) (source_muted_ b) (source_port_name_ b)
    (source_desc_ b) (default_source_name_ b) (ignored_sinks_ b).

Definition set_default_sink_running_ (x : bool) (b : AudioBackend) : AudioBackend :=
  mk_backend (context_ b) (pa_volume_ b) (sink_idx_ b) (volume_ b) (muted_ b)
    (port_name_ b) (form_factor_ b) (desc_ b) (monitor_ b) (current_sink_name_ b)
    (default_sink_name b) x (current_sink_running_ b)
    (source_idx_ b) (source_volume_ b) (source_muted_ b) (source_port_name_ b)
    (source_desc_ b) (default_source_name_ b) (ignored_sinks_ b).

Definition set_current_sink_running_ (x : bool) (b : AudioBackend) : AudioBackend :=
  mk_backend (context_ b) (pa_volume_ b) (sink_idx_ b) (volume_ b) (muted_ b)
    (port_name_ b) (form_factor_ b) (desc_ b) (monitor_ b) (current_sink_name_ b)
    (default_sink_name b) (default_sink_running_ b) x
    (source_idx_ b) (source_volume_ b) (source_muted_ b) (source_port_name_ b)
    (source_desc_ b) (default_source_name_ b) (ignored_sinks_ b).

(** The members [sourceInfoCb] writes. *)
Definition set_source (idx vol : Z) (mute : bool) (port desc : string)
  (b : AudioBackend) : AudioBackend :=
  mk_backend (context_ b) (pa_volume_ b) (sink_idx_ b) (volume_ b) (muted_ b)
    (port_name_ b) (form_factor_ b) (desc_ b) (monitor_ b) (current_sink_name_ b)
    (default_sink_name b) (default_sink_running_ b) (current_sink_running_ b)
    idx vol mute port desc (default_source_name_ b) (ignored_sinks_ b).

Definition set_source_muted_ (x : bool) (b : AudioBackend) : AudioBackend :=
  mk_backend (context_ b) (pa_volume_ b) (sink_idx_ b) (volume_ b) (muted_ b)
    (port_name_ b) (form_factor_ b) (desc_ b) (monitor_ b) (current_sink_name_ b)
    (default_sink_name b) (default_sink_running_ b) (current_sink_running_ b)
    (source_idx_ b) (source_volume_ b) x (source_port_name_ b)
    (source_desc_ b) (default_source_name_ b) (ignored_sinks_ b).

Definition set_default_source_name_ (x : string) (b : AudioBackend) : AudioBackend :=
  mk_backend (context_ b) (pa_volume_ b) (sink_idx_ b) (volume_ b) (muted_ b)
    (port_name_ b) (form_factor_ b) (desc_ b) (monitor_ b) (current_sink_name_ b)
    (default_sink_name b) (default_sink_running_ b) (current_sink_running_ b)
    (source_idx_ b) (source_volume_ b) (source_muted_ b) (source_port_name_ b)
    (source_desc_ b) x (ignored_sinks_ b).

(** [context_ != nullptr && pa_context_get_state(context_) == PA_CONTEXT_READY] *)
Definition context_ready (b : AudioBackend) : bool :=
  match context_ b with
  | Some PA_CONTEXT_READY => true
  | _ => false
  end.

(** Modelled from the spec: the enumeration [ChangeType] is declared in
    the same header; the relative step takes an increase/decrease
    direction, and the code names [ChangeType::Increase] and
    [ChangeType::Decrease]. *)
Inductive ChangeType := Increase | Decrease.

Definition is_Increase (c : ChangeType) : bool :=
  match c with Increase => true | Decrease => false end.
Definition is_Decrease (c : ChangeType) : bool :=
  match c with Decrease => true | Increase => false end.

(** ** Callbacks *)

(** [subscribeCb]: called when an event we subscribed to occurs. *)
Definition subscribeCb (type idx : Z) (b : AudioBackend)
  : AudioBackend * list effect :=
  let facility := Z.land type PA_SUBSCRIPTION_EVENT_FACILITY_MASK in
  let operation := Z.land type PA_SUBSCRIPTION_EVENT_TYPE_MASK in
  if negb (operation =? PA_SUBSCRIPTION_EVENT_CHANGE) then (b, [])
  else if facility =? PA_SUBSCRIPTION_EVENT_SERVER then
    (b, [pa_context_get_server_info cb_serverInfoCb])
  else if facility =? PA_SUBSCRIPTION_EVENT_SINK then
    (b, [pa_context_get_sink_info_by_index idx cb_sinkInfoCb])
  else if facility =? PA_SUBSCRIPTION_EVENT_SINK_INPUT then
    (b, [pa_context_get_sink_info_list cb_sinkInfoCb])
  else if facility =? PA_SUBSCRIPTION_EVENT_SOURCE then
    (b, [pa_context_get_source_info_by_index idx cb_sourceInfoCb])
  else if facility =? PA_SUBSCRIPTION_EVENT_SOURCE_OUTPUT then
    (b, [pa_context_get_source_info_list cb_sourceInfoCb])
  else (b, []).

(** [volumeModifyCb]: called in response to a volume change request. *)
Definition volumeModifyCb (success : Z) (b : AudioBackend)
  : AudioBackend * list effect :=
  if negb (success =? 0) then
    if context_ready b then
      (b, [pa_context_get_sink_info_by_index (sink_idx_ b) cb_sinkInfoCb])
    else (b, [])
  else (b, [spdlog lvl_debug "Volume modification failed"]).

Definition sink_active (st : pa_sink_state_t) : bool :=
  match st with
  | PA_SINK_RUNNING | PA_SINK_IDLE => true
  | _ => false
  end.

(** [std::vector::empty] *)
Definition vector_empty {A} (v : list A) : bool :=
  match v with [] => true | _ => false end.

Definition fmt_bool (x : bool) : string := if x then "true" else "false".

(** The loop over [ignored_sinks_] in [sinkInfoCb]: [Some b'] when the
    callback returns from inside the loop with the backend [b'], [None]
    when the loop runs to its end. *)
Fixpoint ignored_loop (ignored : list string) (i : pa_sink_info)
  (b : AudioBackend) : option AudioBackend :=
  match ignored with
  | [] => None
  | ignored_sink :: rest =>
      if String.eqb ignored_sink (si_description i) then
        Some (if String.eqb (si_name i) (current_sink_name_ b)
              then set_current_sink_running_ false b
              else b)
      else ignored_loop rest i b
  end.

(** Percentage of a native volume as both info callbacks compute it:
    [std::round(static_cast<float>(avg) / float{PA_VOLUME_NORM} * 100.0F)]
    stored in a [uint16_t]. *)
Definition percent_of_native (avg : Z) : Z :=
  let volume := F32.div (F32.of_Z avg) (F32.of_Z PA_VOLUME_NORM) in
  uint16_of_float (F32.round (F32.mul volume (F32.of_Z 100))).

(** The block of [sinkInfoCb] that copies the descriptor into the
    backend once it is the current sink. *)
Definition copy_sink (i : pa_sink_info) (b : AudioBackend)
  : AudioBackend * list effect :=
  let '(b, log) :=
    if pa_cvolume_valid (si_volume i) then
      let b := set_pa_volume_ (si_volume i) b in
      let b := set_sink_idx_ (si_index i) b in
      (set_volume_ (percent_of_native (pa_cvolume_avg (pa_volume_ b))) b, [])
    else
      (set_volume_ 0 (set_pa_volume_ pa_cvolume_init b),
       [spdlog lvl_error "Invalid volume structure received from PulseAudio"]) in
  let b := set_muted_ (negb (si_mute i =? 0)) b in
  let b := set_sink_strings
             (match si_active_port i with Some p => p | None => "Unknown" end)
             (match si_form_factor i with Some ff => ff | None => "" end)
             (si_description i) (si_monitor_source_name i) b in
  (b, (log ++ [on_updated_cb_])%list).

(** [sinkInfoCb]: called when the requested sink information is ready.
    The descriptor pointer may be null (end of a list). *)
Definition sinkInfoCb (i : option pa_sink_info) (b : AudioBackend)
  : AudioBackend * list effect :=
  match i with
  | None => (b, [])
  | Some i =>
      let running := match si_state i with PA_SINK_RUNNING => true | _ => false end in
      let idle := match si_state i with PA_SINK_IDLE => true | _ => false end in
      let tr := [spdlog lvl_trace
                   ("Sink name " ++ si_name i ++ " Running:[" ++ fmt_bool running
                    ++ "] Idle:[" ++ fmt_bool idle ++ "]")] in
      match (if negb (vector_empty (ignored_sinks_ b))
             then ignored_loop (ignored_sinks_ b) i b else None) with
      | Some b' => (b', tr)
      | None =>
          let b := set_default_sink_running_
                     (String.eqb (default_sink_name b) (si_name i)
                      && sink_active (si_state i)) b in
          if negb (String.eqb (si_name i) (default_sink_name b))
             && negb (default_sink_running_ b)
          then (b, tr)
          else
            let b := if String.eqb (current_sink_name_ b) (si_name i)
                     then set_current_sink_running_ (sink_active (si_state i)) b
                     else b in
            let b := if negb (current_sink_running_ b) && sink_active (si_state i)
                     then set_current_sink_running_ true
                            (set_current_sink_name_ (si_name i) b)
                     else b in
            if String.eqb (current_sink_name_ b) (si_name i) then
              let '(b, eff) := copy_sink i b in (b, (tr ++ eff)%list)
            else (b, tr)
      end
  end.

(** [sourceInfoCb]: called when the requested source information is ready. *)
Definition sourceInfoCb (i : option pa_source_info) (b : AudioBackend)
  : AudioBackend * list effect :=
  match i with
  | Some i =>
      if String.eqb (default_source_name_ b) (so_name i) then
        (set_source (so_index i)
           (percent_of_native (pa_cvolume_avg (so_volume i)))
           (negb (so_mute i =? 0))
           (match so_active_port i with Some p => p | None => "Unknown" end)
           (so_description i) b,
         [on_updated_cb_])
      else (b, [])
  | None => (b, [])
  end.

(** [serverInfoCb]: called when the requested information on the server
    is ready; used to find the default sink. *)
Definition serverInfoCb (i : pa_server_info) (b : AudioBackend)
  : AudioBackend * list effect :=
  let b := set_current_sink_name_ (sv_default_sink_name i) b in
  let b := set_default_sink_name (sv_default_sink_name i) b in
  let b := set_default_source_name_ (sv_default_source_name i) b in
  (b, [pa_context_get_sink_info_list cb_sinkInfoCb;
       pa_context_get_source_info_list cb_sourceInfoCb]).

(** ** Mutation entry points *)

(** [std::clamp(v, lo, hi)] *)
Definition std_clamp (v lo hi : Z) : Z :=
  if v <? lo then lo else if hi <? v then hi else v.

(** [static_cast<double>(PA_VOLUME_NORM) / 100] *)
Definition volume_tick : spec_float :=
  Eval vm_compute in F64.div (F64.of_Z PA_VOLUME_NORM) (F64.of_Z 100).

(** [for (uint8_t i = 0; i < pa_volume.channels; i++)
       pa_volume.values[i] = body(pa_volume.values[i]);]
    [channel_loop body i n] runs the [n] remaining iterations from index [i]. *)
Fixpoint channel_loop (body : Z -> Z) (i n : nat) (vals : list Z) : list Z :=
  match n with
  | O => vals
  | S n' => channel_loop body (S i) n' (alter body i vals)
  end.

Definition for_each_channel (body : Z -> Z) (v : pa_cvolume) : pa_cvolume :=
  {| channels := channels v;
     values := channel_loop body 0 (Z.to_nat (channels v)) (values v) |}.

(** The test both overloads make on the stored structure. *)
Definition stored_volume_usable (b : AudioBackend) : bool :=
  pa_cvolume_valid (pa_volume_ b) && pa_channels_valid (channels (pa_volume_ b)).

(** The locked submission both overloads end with. *)
Definition submit_volume (b : AudioBackend) (v : pa_cvolume) : list effect :=
  [pa_threaded_mainloop_lock;
   pa_context_set_sink_volume_by_index (sink_idx_ b) v cb_volumeModifyCb;
   pa_threaded_mainloop_unlock].

(** Native value of a percentage: [pa_volume_t vol = percent * volume_tick]. *)
Definition native_of_percent (percent : Z) : Z :=
  uint32_of_float (F64.mul (F64.of_Z percent) volume_tick).

(** [changeVolume(uint16_t volume, uint16_t min_volume, uint16_t max_volume)] *)
Definition changeVolume (volume min_volume max_volume : Z) (b : AudioBackend)
  : AudioBackend * list effect :=
  if negb (context_ready b) then
    (b, [spdlog lvl_error "PulseAudio context not ready"])
  else
    let pa_volume := pa_cvolume_init in
    let '(pa_volume, log) :=
      if stored_volume_usable b then (pa_volume_ b, [])
      else ({| channels := 2; values := values pa_volume |},
            [spdlog lvl_debug "Using default stereo volume structure"]) in
    let volume := std_clamp volume min_volume max_volume in
    let vol := native_of_percent volume in
    let pa_volume := for_each_channel (fun _ => vol) pa_volume in
    (b, (log ++ submit_volume b pa_volume)%list).

(** The maximum the relative step works with:
    [std::min(max_volume, static_cast<uint16_t>(PA_VOLUME_UI_MAX))]. *)
Definition clamped_max (max_volume : Z) : Z :=
  Z.min max_volume (wrap16 PA_VOLUME_UI_MAX).

(** The amount of an increase, in native units:
    [volume_ + step > max_volume ? round((max_volume - volume_) * volume_tick)
                                 : round(step * volume_tick)]. *)
Definition increase_change (vol : Z) (step : spec_float) (max_volume : Z) : Z :=
  uint32_of_float
    (if IEEE.gtb (F64.add (F64.of_Z vol) step) (F64.of_Z max_volume)
     then F64.round (F64.mul (F64.of_Z (max_volume - vol)) volume_tick)
     else F64.round (F64.mul step volume_tick)).

(** The amount of a decrease, in native units:
    [volume_ - step < 0 ? round(volume_ * volume_tick)
                        : round(step * volume_tick)]. *)
Definition decrease_change (vol : Z) (step : spec_float) : Z :=
  uint32_of_float
    (if IEEE.ltb (F64.sub (F64.of_Z vol) step) (F64.of_Z 0)
     then F64.round (F64.mul (F64.of_Z vol) volume_tick)
     else F64.round (F64.mul step volume_tick)).

(** [changeVolume(ChangeType change_type, double step, uint16_t max_volume)] *)
Definition changeVolume_ChangeType (change_type : ChangeType) (step : spec_float)
  (max_volume : Z) (b : AudioBackend) : AudioBackend * list effect :=
  if negb (context_ready b) then
    (b, [spdlog lvl_error "PulseAudio context not ready"])
  else
    let pa_volume := pa_cvolume_init in
    if stored_volume_usable b then
      let pa_volume := pa_volume_ b in
      let max_volume := clamped_max max_volume in
      if is_Increase change_type && (volume_ b <? max_volume) then
        let change := increase_change (volume_ b) step max_volume in
        let pa_volume :=
          for_each_channel
            (fun v => Z.min (wrap32 (v + change)) PA_VOLUME_MAX) pa_volume in
        (b, submit_volume b pa_volume)
      else if is_Decrease change_type && (0 <? volume_ b) then
        let change := decrease_change (volume_ b) step in
        let pa_volume :=
          for_each_channel
            (fun v => if change <? v then v - change else 0) pa_volume in
        (b, submit_volume b pa_volume)
      else (b, [])
    else
      let pa_volume := {| channels := 2; values := values pa_volume |} in
      let vol := native_of_percent (volume_ b) in
      let pa_volume := for_each_channel (fun _ => vol) pa_volume in
      (b, (spdlog lvl_debug "Using default stereo volume structure"
             :: submit_volume b pa_volume)%list).

Definition int_of_bool (x : bool) : Z := if x then 1 else 0.

(** The four toggles pass [context_] on to libpulse without looking at it. *)

(** [toggleSinkMute()] *)
Definition toggleSinkMute (b : AudioBackend) : AudioBackend * list effect :=
  let b := set_muted_ (negb (muted_ b)) b in
  (b, [pa_threaded_mainloop_lock;
       pa_context_set_sink_mute_by_index (sink_idx_ b) (int_of_bool (muted_ b))
         cb_nullptr;
       pa_threaded_mainloop_unlock]).

(** [toggleSinkMute(bool mute)] *)
Definition toggleSinkMute_bool (mute : bool) (b : AudioBackend)
  : AudioBackend * list effect :=
  let b := set_muted_ mute b in
  (b, [pa_threaded_mainloop_lock;
       pa_context_set_sink_mute_by_index (sink_idx_ b) (int_of_bool (muted_ b))
         cb_nullptr;
       pa_threaded_mainloop_unlock]).

(** [toggleSourceMute()] *)
Definition toggleSourceMute (b : AudioBackend) : AudioBackend * list effect :=
  let b := set_source_muted_ (negb (muted_ b)) b in
  (b, [pa_threaded_mainloop_lock;
       pa_context_set_source_mute_by_index (source_idx_ b)
         (int_of_bool (source_muted_ b)) cb_nullptr;
       pa_threaded_mainloop_unlock]).

(** [toggleSourceMute(bool mute)] *)
Definition toggleSourceMute_bool (mute : bool) (b : AudioBackend)
  : AudioBackend * list effect :=
  let b := set_source_muted_ mute b in
  (b, [pa_threaded_mainloop_lock;
       pa_context_set_source_mute_by_index (source_idx_ b)
         (int_of_bool (source_muted_ b)) cb_nullptr;
       pa_threaded_mainloop_unlock]).

(** A run of the resolver over a sequence of sink descriptors. *)
Definition deliver_sinks (ds : list pa_sink_info) (b : AudioBackend)
  : AudioBackend :=
  fold_left (fun b i => fst (sinkInfoCb (Some i) b)) ds b.

(** ** Auxiliary definitions for the statements *)

(** [values] is a C array of [PA_CHANNELS_MAX] entries. *)
Definition cvolume_wf (v : pa_cvolume) : Prop :=
  length (values v) = Z.to_nat PA_CHANNELS_MAX.

(** The structure the absolute overload starts from. *)
Definition base_volume (b : AudioBackend) : pa_cvolume :=
  if stored_volume_usable b then pa_volume_ b
  else {| channels := 2; values := values pa_cvolume_init |}.

(** [range_all f start n]: [f] holds on [start, start+1, ..., start+n-1]. *)
Fixpoint range_all (f : Z -> bool) (start : Z) (n : nat) : bool :=
  match n with
  | O => true
  | S k => f start && range_all f (start + 1) k
  end.

(** What is checked for each percentage: the native value is a valid
    volume and its percentage is the one started from. *)
Definition roundtrip_ok (p : Z) : bool :=
  let vol := native_of_percent p in
  (vol <=? PA_VOLUME_MAX) && (percent_of_native vol =? p).

(** ** Concrete backends and descriptors used in examples *)

Module Examples.

(** The backend as the constructor leaves it, on a ready connection. *)
Definition fresh : AudioBackend :=
  {| context_ := Some PA_CONTEXT_READY; pa_volume_ := pa_cvolume_init;
     sink_idx_ := 0; volume_ := 0; muted_ := false; port_name_ := "";
     form_factor_ := ""; desc_ := ""; monitor_ := "";
     current_sink_name_ := ""; default_sink_name := "";
     default_sink_running_ := false; current_sink_running_ := false;
     source_idx_ := 0; source_volume_ := 0; source_muted_ := false;
     source_port_name_ := ""; source_desc_ := "";
     default_source_name_ := ""; ignored_sinks_ := [] |}.

(** A stereo structure with the given left and right volumes. *)
Definition stereo (l r : Z) : pa_cvolume :=
  {| channels := 2;
     values := l :: r :: replicate 30 PA_VOLUME_INVALID |}.

Definition sink (name desc : string) (st : pa_sink_state_t) (v : pa_cvolume)
  : pa_sink_info :=
  {| si_name := name; si_index := 3; si_description := desc; si_state := st;
     si_volume := v; si_mute := 0;
     si_monitor_source_name := name ++ ".monitor";
     si_active_port := Some "analog-output"; si_form_factor := None |}.

(** The server announced "X" as default sink and "mic" as default source. *)
Definition announced : AudioBackend :=
  fst (serverInfoCb {| sv_default_sink_name := "X";
                       sv_default_source_name := "mic" |} fresh).

(** The same backend while the connection is being re-established. *)
Definition with_context (c : option pa_context_state_t) (b : AudioBackend)
  : AudioBackend :=
  mk_backend c (pa_volume_ b) (sink_idx_ b) (volume_ b) (muted_ b)
    (port_name_ b) (form_factor_ b) (desc_ b) (monitor_ b)
    (current_sink_name_ b) (default_sink_name b) (default_sink_running_ b)
    (current_sink_running_ b) (source_idx_ b) (source_volume_ b)
    (source_muted_ b) (source_port_name_ b) (source_desc_ b)
    (default_source_name_ b) (ignored_sinks_ b).

Definition with_ignored (l : list string) (b : AudioBackend) : AudioBackend :=
  mk_backend (context_ b) (pa_volume_ b) (sink_idx_ b) (volume_ b) (muted_ b)
    (port_name_ b) (form_factor_ b) (desc_ b) (monitor_ b)
    (current_sink_name_ b) (default_sink_name b) (default_sink_running_ b)
    (current_sink_running_ b) (source_idx_ b) (source_volume_ b)
    (source_muted_ b) (source_port_name_ b) (source_desc_ b)
    (default_source_name_ b) l.

End Examples.

(** ** The remaining member functions *)

Definition set_context_ (x : option pa_context_state_t) (b : AudioBackend)
  : AudioBackend :=
  mk_backend x (pa_volume_ b) (sink_idx_ b) (volume_ b) (muted_ b)
    (port_name_ b) (form_factor_ b) (desc_ b) (monitor_ b)
    (current_sink_name_ b) (default_sink_name b) (default_sink_running_ b)
    (current_sink_running_ b) (source_idx_ b) (source_volume_ b)
    (source_muted_ b) (source_port_name_ b) (source_desc_ b)
    (default_source_name_ b) (ignored_sinks_ b).

Definition set_ignored_sinks_ (x : list string) (b : AudioBackend)
  : AudioBackend :=
  mk_backend (context_ b) (pa_volume_ b) (sink_idx_ b) (volume_ b) (muted_ b)
    (port_name_ b) (form_factor_ b) (desc_ b) (monitor_ b)
    (current_sink_name_ b) (default_sink_name b) (default_sink_running_ b)
    (current_sink_running_ b) (source_idx_ b) (source_volume_ b)
    (source_muted_ b) (source_port_name_ b) (source_desc_ b)
    (default_source_name_ b) x.

(** *** [isBluetooth] *)

(** Does [s] begin with [pat]? *)
Fixpoint starts_with (pat s : string) : bool :=
  match pat, s with
  | EmptyString, _ => true
  | String a pat', String c s' => Ascii.eqb a c && starts_with pat' s'
  | String _ _, EmptyString => false
  end.

(** [find_from pat s pos]: the search of [std::string::find] once the
    first [pos] characters are behind; [s] is what is left. *)
Fixpoint find_from (pat s : string) (pos : nat) : option nat :=
  if starts_with pat s then Some pos
  else match s with
       | EmptyString => None
       | String _ s' => find_from pat s' (S pos)
       end.

(** [s.find(pat)]: the first position where [pat] occurs in [s];
    [None] stands for [std::string::npos]. *)
Definition std_string_find (s pat : string) : option nat := find_from pat s 0.

Definition not_npos (r : option nat) : bool :=
  match r with Some _ => true | None => false end.

(** [isBluetooth()] *)
Definition isBluetooth (b : AudioBackend) : bool :=
  not_npos (std_string_find (monitor_ b) "a2dp_sink")
  || not_npos (std_string_find (monitor_ b) "a2dp-sink")
  || not_npos (std_string_find (monitor_ b) "bluez").

(** *** [setIgnoredSinks] *)

(** A JSON value as jsoncpp's [Json::Value] holds it. *)
#[local] Set Warnings "-register-all".
Inductive Json_Value :=
| Json_null
| Json_int (n : Z)
| Json_real (x : spec_float)
| Json_string (s : string)
| Json_bool (x : bool)
| Json_array (elems : list Json_Value)
| Json_object (members : list (string * Json_Value)).

(** The body of the loop over the array: [push_back] of a string element. *)
Definition push_if_string (b : AudioBackend) (ignored_sink : Json_Value)
  : AudioBackend :=
  match ignored_sink with
  | Json_string s => set_ignored_sinks_ (ignored_sinks_ b ++ [s])%list b
  | _ => b
  end.

(** [setIgnoredSinks(const Json::Value &config)] *)
Definition setIgnoredSinks (config : Json_Value) (b : AudioBackend)
  : AudioBackend :=
  match config with
  | Json_array elems => fold_left push_if_string elems b
  | _ => b
  end.

(** The string elements of an array, in order. *)
Fixpoint json_strings (elems : list Json_Value) : list string :=
  match elems with
  | [] => []
  | Json_string s :: rest => s :: json_strings rest
  | _ :: rest => json_strings rest
  end.

(** *** Connection management *)

Definition PA_SUBSCRIPTION_MASK_SINK : Z := 0x0001.
Definition PA_SUBSCRIPTION_MASK_SOURCE : Z := 0x0002.
Definition PA_SUBSCRIPTION_MASK_SINK_INPUT : Z := 0x0004.
Definition PA_SUBSCRIPTION_MASK_SOURCE_OUTPUT : Z := 0x0008.
Definition PA_SUBSCRIPTION_MASK_SERVER : Z := 0x0080.
Definition PA_CONTEXT_NOFAIL : Z := 0x0002.

(** libpulse's [pa_subscription_match_flags(m, t)]: does the mask [m]
    select the facility of the event [t]? *)
Definition pa_subscription_match_flags (m t : Z) : bool :=
  negb (Z.land m (Z.shiftl 1 (Z.land t PA_SUBSCRIPTION_EVENT_FACILITY_MASK)) =? 0).

(** What the library calls made while connecting turn out to do:
    whether the main loop and the context could be allocated, the error
    text if [pa_context_connect] returns a negative value, the state the
    new context is in afterwards, and whether the loop thread started. *)
Record pa_outcomes := mk_outcomes {
  mainloop_new_ok : bool;
  context_new_ok : bool;
  connect_error : option string;
  connected_state : pa_context_state_t;
  mainloop_start_ok : bool
}.

(** Effects of the connection code: those of the callbacks above and
    the calls on the main loop and the context. *)
Inductive conn_effect :=
| api (e : effect)
| pa_threaded_mainloop_new
| pa_threaded_mainloop_get_api
| pa_threaded_mainloop_start
| mainloop_api_quit (retval : Z)
| pa_context_new (name : string)
| pa_context_set_state_callback
| pa_context_connect (flags : Z)
| pa_context_disconnect
| pa_context_set_subscribe_callback
| pa_context_subscribe (mask : Z).

(** A call either returns or throws [std::runtime_error]; both carry the
    backend as it then is and the effects performed so far. *)
Inductive outcome :=
| Returned (b : AudioBackend) (t : list conn_effect)
| Thrown (what : string) (b : AudioBackend) (t : list conn_effect).

(** [connectContext()] *)
Definition connectContext (o : pa_outcomes) (b : AudioBackend) : outcome :=
  let b := set_context_ (if context_new_ok o
                         then Some PA_CONTEXT_UNCONNECTED else None) b in
  match context_ b with
  | None => Thrown "pa_context_new() failed." b [pa_context_new "waybar"]
  | Some _ =>
      let t := [pa_context_new "waybar"; pa_context_set_state_callback;
                pa_context_connect PA_CONTEXT_NOFAIL] in
      let b := set_context_ (Some (connected_state o)) b in
      match connect_error o with
      | Some err => Thrown ("pa_context_connect() failed: " ++ err) b t
      | None => Returned b t
      end
  end.

(** The mask [contextStateCb] subscribes with. *)
Definition subscription_mask : Z :=
  Z.lor (Z.lor (Z.lor (Z.lor PA_SUBSCRIPTION_MASK_SERVER
                             PA_SUBSCRIPTION_MASK_SINK)
                      PA_SUBSCRIPTION_MASK_SINK_INPUT)
               PA_SUBSCRIPTION_MASK_SOURCE)
        PA_SUBSCRIPTION_MASK_SOURCE_OUTPUT.

(** [contextStateCb]: [st] is [pa_context_get_state(c)] for the context
    [c] the callback is called for. *)
Definition contextStateCb (st : pa_context_state_t) (o : pa_outcomes)
  (b : AudioBackend) : outcome :=
  match st with
  | PA_CONTEXT_TERMINATED => Returned b [mainloop_api_quit 0]
  | PA_CONTEXT_READY =>
      Returned b [api (pa_context_get_server_info cb_serverInfoCb);
                  pa_context_set_subscribe_callback;
                  pa_context_subscribe subscription_mask]
  | PA_CONTEXT_FAILED =>
      let t := match context_ b with
               | Some _ => [pa_context_disconnect]
               | None => []
               end in
      match connectContext o b with
      | Returned b' t' => Returned b' (t ++ t')%list
      | Thrown what b' t' => Thrown what b' (t ++ t')%list
      end
  | _ => Returned b []
  end.

(** The constructor.  Its initializer list sets [context_], the two
    percentages and the two mute flags, and its body initializes
    [pa_volume_]; the members it does not mention start as their
    declarations leave them, which is what [raw] stands for. *)
Definition AudioBackend_constructor (o : pa_outcomes) (raw : AudioBackend)
  : outcome :=
  let b := set_source (source_idx_ raw) 0 false (source_port_name_ raw)
             (source_desc_ raw)
             (set_muted_ false (set_volume_ 0 (set_context_ None raw))) in
  let b := set_pa_volume_ pa_cvolume_init b in
  if negb (mainloop_new_ok o) then
    Thrown "pa_mainloop_new() failed." b [pa_threaded_mainloop_new]
  else
    let t := [pa_threaded_mainloop_new; api pa_threaded_mainloop_lock;
              pa_threaded_mainloop_get_api] in
    match connectContext o b with
    | Thrown what b' t' => Thrown what b' (t ++ t')%list
    | Returned b' t' =>
        if negb (mainloop_start_ok o) then
          Thrown "pa_mainloop_run() failed." b'
            (t ++ t' ++ [pa_threaded_mainloop_start])%list
        else
          Returned b' (t ++ t' ++ [pa_threaded_mainloop_start;
                                   api pa_threaded_mainloop_unlock])%list
    end.

(** ** Sequences of callbacks and calls *)

(** What can happen to a constructed backend: a callback delivered by
    the loop thread, a call of a mutation entry point, or a change of the
    connection handle or of its state. *)
Inductive event :=
| ev_subscribe (type idx : Z)
| ev_volumeModify (success : Z)
| ev_sinkInfo (i : option pa_sink_info)
| ev_sourceInfo (i : option pa_source_info)
| ev_serverInfo (i : pa_server_info)
| ev_changeVolume (volume min_volume max_volume : Z)
| ev_changeVolume_ChangeType (change_type : ChangeType) (step : spec_float)
    (max_volume : Z)
| ev_toggleSinkMute
| ev_toggleSinkMute_bool (mute : bool)
| ev_toggleSourceMute
| ev_toggleSourceMute_bool (mute : bool)
| ev_context (c : option pa_context_state_t).

Definition step (e : event) (b : AudioBackend) : AudioBackend * list effect :=
  match e with
  | ev_subscribe type idx => subscribeCb type idx b
  | ev_volumeModify success => volumeModifyCb success b
  | ev_sinkInfo i => sinkInfoCb i b
  | ev_sourceInfo i => sourceInfoCb i b
  | ev_serverInfo i => serverInfoCb i b
  | ev_changeVolume volume min_volume max_volume =>
      changeVolume volume min_volume max_volume b
  | ev_changeVolume_ChangeType change_type step max_volume =>
      changeVolume_ChangeType change_type step max_volume b
  | ev_toggleSinkMute => toggleSinkMute b
  | ev_toggleSinkMute_bool mute => toggleSinkMute_bool mute b
  | ev_toggleSourceMute => toggleSourceMute b
  | ev_toggleSourceMute_bool mute => toggleSourceMute_bool mute b
  | ev_context c => (set_context_ c b, [])
  end.

(** The backend after a sequence of events, and everything it did. *)
Fixpoint run (es : list event) (b : AudioBackend) : AudioBackend * list effect :=
  match es with
  | [] => (b, [])
  | e :: rest =>
      let '(b1, t1) := step e b in
      let '(b2, t2) := run rest b1 in
      (b2, (t1 ++ t2)%list)
  end.

(** A mutation entry point, as opposed to a callback. *)
Definition is_mutation (e : event) : bool :=
  match e with
  | ev_changeVolume _ _ _ | ev_changeVolume_ChangeType _ _ _
  | ev_toggleSinkMute | ev_toggleSinkMute_bool _
  | ev_toggleSourceMute | ev_toggleSourceMute_bool _ => true
  | _ => false
  end.

(** What the constructor's initializer list and body guarantee. *)
Definition constructed (b : AudioBackend) : Prop :=
  volume_ b = 0 /\ pa_volume_ b = pa_cvolume_init.

(** The lock protocol of a trace: lock and unlock alternate, starting
    and ending unlocked, and a request is only made while locked.
    [locked] is the state at the head of the trace. *)
Fixpoint lock_discipline (locked : bool) (t : list effect) : bool :=
  match t with
  | [] => negb locked
  | pa_threaded_mainloop_lock :: rest => negb locked && lock_discipline true rest
  | pa_threaded_mainloop_unlock :: rest => locked && lock_discipline false rest
  | e :: rest =>
      (if is_request e then locked else true) && lock_discipline locked rest
  end.

(** What is checked for each percentage against integer arithmetic:
    the native value is the integer quotient of [p * PA_VOLUME_NORM]
    by 100. *)
Definition native_formula_ok (p : Z) : bool :=
  native_of_percent p =? p * PA_VOLUME_NORM / 100.

(** ** The whole life of a backend *)

(** Besides the callbacks and the mutation entry points, the owner of
    the backend can call [setIgnoredSinks] at any time after construction. *)
Inductive lifetime_event :=
| le_event (e : event)
| le_setIgnoredSinks (config : Json_Value).

Definition lifetime_step (a : lifetime_event) (b : AudioBackend)
  : AudioBackend * list effect :=
  match a with
  | le_event e => step e b
  | le_setIgnoredSinks config => (setIgnoredSinks config b, [])
  end.

Fixpoint lifetime_run (es : list lifetime_event) (b : AudioBackend)
  : AudioBackend * list effect :=
  match es with
  | [] => (b, [])
  | a :: rest =>
      let '(b1, t1) := lifetime_step a b in
      let '(b2, t2) := lifetime_run rest b1 in
      (b2, (t1 ++ t2)%list)
  end.

(** * Properties *)

(** ** Scenarios of the specification, run on the model *)

(** Default output "X"; a descriptor for "X", idle at 50%, arrives: the
    volume is 50, the sink is running, one notification fires. *)
Example scenario_default_idle_50 :
  let r := sinkInfoCb (Some (Examples.sink "X" "Speakers" PA_SINK_IDLE
                               (Examples.stereo 32768 32768)))
             Examples.announced in
  volume_ (fst r) = 50 /\ current_sink_running_ (fst r) = true
  /\ notifications (snd r) = [on_updated_cb_].
Proof. vm_compute. auto. Qed.

(** Decrease by 10 at volume 5: both channels reach 0. *)
Example scenario_decrease_to_zero :
  let b := set_volume_ 5 (set_pa_volume_ (Examples.stereo 3277 3277)
                            Examples.announced) in
  exists v, snd (changeVolume_ChangeType Decrease (F64.of_Z 10) 100 b)
            = submit_volume b v
            /\ used_values v = [0; 0].
Proof. eexists. split; vm_compute; reflexivity. Qed.

(** ** The resolver and the ignore list *)

Section IgnoreList.

Variable i : pa_sink_info.

(** The loop returns from the callback as soon as it meets the
    descriptor's description, whatever stands before it in the list. *)
Lemma ignored_loop_hit (ignored : list string) (b : AudioBackend) :
  In (si_description i) ignored ->
  ignored_loop ignored i b
  = Some (if String.eqb (si_name i) (current_sink_name_ b)
          then set_current_sink_running_ false b else b).
Proof.
  induction ignored as [|s rest IH]; simpl; [tauto|].
  intros [Heq | Hin].
  - subst s. rewrite String.eqb_refl. reflexivity.
  - destruct (String.eqb s (si_description i)); [reflexivity | auto].
Qed.

Lemma ignored_loop_miss (ignored : list string) (b : AudioBackend) :
  ~ In (si_description i) ignored -> ignored_loop ignored i b = None.
Proof.
  induction ignored as [|s rest IH]; simpl; [reflexivity|].
  intros Hn. destruct (String.eqb_spec s (si_description i)) as [-> | _].
  - exfalso. apply Hn. now left.
  - apply IH. intros H. apply Hn. now right.
Qed.

Lemma In_not_empty {A} (x : A) (l : list A) : In x l -> vector_empty l = false.
Proof. destruct l; simpl; [tauto | reflexivity]. Qed.

(** One delivery of a descriptor whose description is ignored. *)
Lemma sinkInfoCb_ignored (b : AudioBackend) :
  In (si_description i) (ignored_sinks_ b) ->
  sinkInfoCb (Some i) b
  = (if String.eqb (si_name i) (current_sink_name_ b)
     then set_current_sink_running_ false b else b,
     [spdlog lvl_trace
        ("Sink name " ++ si_name i ++ " Running:["
         ++ fmt_bool match si_state i with PA_SINK_RUNNING => true | _ => false end
         ++ "] Idle:["
         ++ fmt_bool match si_state i with PA_SINK_IDLE => true | _ => false end
         ++ "]")]).
Proof.
  intros Hin. unfold sinkInfoCb.
  rewrite (In_not_empty _ _ Hin). simpl negb. cbv iota.
  rewrite (ignored_loop_hit _ _ Hin). reflexivity.
Qed.

End IgnoreList.

(** The ignore list is configured once: no sink delivery changes it. *)
Lemma sinkInfoCb_ignored_sinks (i : option pa_sink_info) (b : AudioBackend) :
  ignored_sinks_ (fst (sinkInfoCb i b)) = ignored_sinks_ b.
Proof.
  destruct i as [i|]; [|reflexivity]. unfold sinkInfoCb.
  destruct (negb (vector_empty (ignored_sinks_ b))).
  2: { cbv zeta.
       repeat match goal with
              | |- context [if ?c then _ else _] => destruct c
              | |- context [copy_sink ?x ?y] => unfold copy_sink
              end; reflexivity. }
  destruct (in_dec String.string_dec (si_description i) (ignored_sinks_ b)) as [Hin|Hn].
  - rewrite (ignored_loop_hit _ _ _ Hin).
    destruct (String.eqb _ _); reflexivity.
  - rewrite (ignored_loop_miss _ _ _ Hn). cbv zeta.
    repeat match goal with
           | |- context [if ?c then _ else _] => destruct c
           | |- context [copy_sink ?x ?y] => unfold copy_sink
           end; reflexivity.
Qed.

Lemma deliver_sinks_cons (d : pa_sink_info) (ds : list pa_sink_info)
  (b : AudioBackend) :
  deliver_sinks (d :: ds) b = deliver_sinks ds (fst (sinkInfoCb (Some d) b)).
Proof. reflexivity. Qed.

Lemma deliver_sinks_ignored_sinks (ds : list pa_sink_info) (b : AudioBackend) :
  ignored_sinks_ (deliver_sinks ds b) = ignored_sinks_ b.
Proof.
  revert b. induction ds as [|d ds IH]; intros b; [reflexivity|].
  rewrite deliver_sinks_cons, IH. apply sinkInfoCb_ignored_sinks.
Qed.

(** A descriptor that is not ignored and does not carry the default
    sink's name is dropped after [default_sink_running_] has been
    cleared: the early return depends on the flag just computed from
    this very descriptor. *)
Lemma sinkInfoCb_non_default (i : pa_sink_info) (b : AudioBackend) :
  ~ In (si_description i) (ignored_sinks_ b) ->
  si_name i <> default_sink_name b ->
  fst (sinkInfoCb (Some i) b) = set_default_sink_running_ false b
  /\ notifications (snd (sinkInfoCb (Some i) b)) = [].
Proof.
  intros Hn Hne. unfold sinkInfoCb.
  rewrite (ignored_loop_miss _ _ _ Hn).
  assert (Hd : String.eqb (default_sink_name b) (si_name i) = false)
    by (apply String.eqb_neq; congruence).
  assert (Hd' : String.eqb (si_name i) (default_sink_name b) = false)
    by (apply String.eqb_neq; congruence).
  destruct (negb (vector_empty (ignored_sinks_ b))); cbv zeta;
    rewrite Hd; simpl; rewrite Hd'; simpl; split; reflexivity.
Qed.

(** The description shown for the current sink never comes from an
    ignored descriptor: a delivery either keeps [desc_] or stores a
    description that is not on the list. *)
Lemma sinkInfoCb_desc (i : pa_sink_info) (b : AudioBackend) :
  desc_ (fst (sinkInfoCb (Some i) b)) = desc_ b
  \/ (desc_ (fst (sinkInfoCb (Some i) b)) = si_description i
      /\ ~ In (si_description i) (ignored_sinks_ b)).
Proof.
  destruct (in_dec String.string_dec (si_description i) (ignored_sinks_ b))
    as [Hin|Hn].
  - left. rewrite (sinkInfoCb_ignored i b Hin). simpl.
    destruct (String.eqb _ _); reflexivity.
  - unfold sinkInfoCb. rewrite (ignored_loop_miss _ _ _ Hn).
    destruct (negb (vector_empty (ignored_sinks_ b))); cbv zeta;
      repeat match goal with
             | |- context [if ?c then _ else _] => destruct c
             | |- context [copy_sink ?x ?y] => unfold copy_sink
             end; simpl; auto.
Qed.

Lemma deliver_sinks_desc_not_ignored (ds : list pa_sink_info) (b : AudioBackend) :
  ~ In (desc_ b) (ignored_sinks_ b) ->
  ~ In (desc_ (deliver_sinks ds b)) (ignored_sinks_ b).
Proof.
  revert b. induction ds as [|d ds IH]; intros b Hb; [exact Hb|].
  rewrite deliver_sinks_cons.
  rewrite <- (sinkInfoCb_ignored_sinks (Some d) b).
  apply IH. rewrite sinkInfoCb_ignored_sinks.
  destruct (sinkInfoCb_desc d b) as [-> | [-> Hn]]; assumption.
Qed.

(** C1.  Along any sequence of sink descriptors handed to the resolver,
    the delivery of a descriptor whose description is on the ignore list
    never adopts it: the current sink name stays what it was, no
    notification fires, and the backend is left unchanged except that
    [current_sink_running_] becomes false when the descriptor carries the
    name of the current sink.  This holds for every state and every
    descriptor, in particular for the running default sink. *)
Theorem ignored_sink_never_adopted
  (pre : list pa_sink_info) (i : pa_sink_info) (b0 : AudioBackend) :
  In (si_description i) (ignored_sinks_ b0) ->
  let b := deliver_sinks pre b0 in
  let b' := fst (sinkInfoCb (Some i) b) in
  b' = (if String.eqb (si_name i) (current_sink_name_ b)
        then set_current_sink_running_ false b else b)
  /\ current_sink_name_ b' = current_sink_name_ b
  /\ (si_name i = current_sink_name_ b -> current_sink_running_ b' = false)
  /\ (si_name i <> current_sink_name_ b -> b' = b)
  /\ notifications (snd (sinkInfoCb (Some i) b)) = []
  /\ requests (snd (sinkInfoCb (Some i) b)) = [].
Proof.
  intros Hin b b'.
  assert (Hin' : In (si_description i) (ignored_sinks_ b)).
  { unfold b. rewrite deliver_sinks_ignored_sinks. exact Hin. }
  unfold b'. rewrite (sinkInfoCb_ignored i b Hin'). simpl fst. simpl snd.
  repeat split.
  - destruct (String.eqb _ _); reflexivity.
  - intros Heq. rewrite Heq, String.eqb_refl. reflexivity.
  - intros Hne. apply String.eqb_neq in Hne. rewrite Hne. reflexivity.
Qed.

(** The running default sink, when ignored, is not adopted. *)
Lemma ignored_sink_never_adopted_witness :
  let b0 := Examples.with_ignored ["Monitor of X"] Examples.announced in
  let i := Examples.sink "X" "Monitor of X" PA_SINK_RUNNING
             (Examples.stereo 65536 65536) in
  In (si_description i) (ignored_sinks_ b0)
  /\ si_name i = default_sink_name b0
  /\ fst (sinkInfoCb (Some i) b0) = set_current_sink_running_ false b0
  /\ desc_ (fst (sinkInfoCb (Some i) b0)) = "".
Proof.
  intros b0 i.
  assert (Hin : In (si_description i) (ignored_sinks_ b0)) by (simpl; auto).
  split; [exact Hin|]. split; [reflexivity|].
  pose proof (ignored_sink_never_adopted [] i b0 Hin) as H.
  cbv zeta in H. change (deliver_sinks [] b0) with b0 in H.
  destruct H as (Heq & _).
  split; [rewrite Heq; reflexivity | rewrite Heq; reflexivity].
Defined.

(** ** Subscription events *)

(** C9.  Dispatch of a subscription event.  The backend is never
    touched.  An event whose operation bits are not CHANGE (new, remove)
    causes no request.  A CHANGE event on the server facility requests
    the server info; on a sink, that sink by the event's index; on a sink
    input, the whole sink list; on a source, that source by the event's
    index; on a source output, the whole source list. *)
Theorem subscribeCb_dispatch (type idx : Z) (b : AudioBackend) :
  let facility := Z.land type PA_SUBSCRIPTION_EVENT_FACILITY_MASK in
  let operation := Z.land type PA_SUBSCRIPTION_EVENT_TYPE_MASK in
  let out := snd (subscribeCb type idx b) in
  fst (subscribeCb type idx b) = b
  /\ (operation <> PA_SUBSCRIPTION_EVENT_CHANGE -> out = [])
  /\ (operation = PA_SUBSCRIPTION_EVENT_CHANGE ->
      (facility = PA_SUBSCRIPTION_EVENT_SERVER ->
       out = [pa_context_get_server_info cb_serverInfoCb])
      /\ (facility = PA_SUBSCRIPTION_EVENT_SINK ->
          out = [pa_context_get_sink_info_by_index idx cb_sinkInfoCb])
      /\ (facility = PA_SUBSCRIPTION_EVENT_SINK_INPUT ->
          out = [pa_context_get_sink_info_list cb_sinkInfoCb])
      /\ (facility = PA_SUBSCRIPTION_EVENT_SOURCE ->
          out = [pa_context_get_source_info_by_index idx cb_sourceInfoCb])
      /\ (facility = PA_SUBSCRIPTION_EVENT_SOURCE_OUTPUT ->
          out = [pa_context_get_source_info_list cb_sourceInfoCb])).
Proof.
  cbv zeta. unfold subscribeCb.
  set (facility := Z.land type PA_SUBSCRIPTION_EVENT_FACILITY_MASK).
  set (operation := Z.land type PA_SUBSCRIPTION_EVENT_TYPE_MASK).
  destruct (Z.eqb_spec operation PA_SUBSCRIPTION_EVENT_CHANGE) as [Hop|Hop];
    simpl negb; cbv iota.
  - split.
    + repeat match goal with |- context [if ?c then _ else _] => destruct c end;
        reflexivity.
    + split; [intros Hne; contradiction|]. intros _.
      repeat split; intros ->; reflexivity.
  - split; [reflexivity|]. split; [reflexivity|]. intros Hc; contradiction.
Qed.

(** A sink change and a sink removal, on a fresh backend. *)
Lemma subscribeCb_dispatch_witness :
  snd (subscribeCb (Z.lor PA_SUBSCRIPTION_EVENT_SINK PA_SUBSCRIPTION_EVENT_CHANGE)
         7 Examples.fresh)
  = [pa_context_get_sink_info_by_index 7 cb_sinkInfoCb]
  /\ snd (subscribeCb
            (Z.lor PA_SUBSCRIPTION_EVENT_SINK PA_SUBSCRIPTION_EVENT_REMOVE)
            7 Examples.fresh) = [].
Proof.
  split.
  - pose proof (subscribeCb_dispatch
                  (Z.lor PA_SUBSCRIPTION_EVENT_SINK PA_SUBSCRIPTION_EVENT_CHANGE)
                  7 Examples.fresh) as H.
    cbv zeta in H. destruct H as (_ & _ & H).
    destruct (H eq_refl) as (_ & Hsink & _). exact (Hsink eq_refl).
  - pose proof (subscribeCb_dispatch
                  (Z.lor PA_SUBSCRIPTION_EVENT_SINK PA_SUBSCRIPTION_EVENT_REMOVE)
                  7 Examples.fresh) as H.
    cbv zeta in H. destruct H as (_ & H & _).
    apply H. vm_compute. discriminate.
Defined.

(** A CHANGE event on a facility the backend has no branch for, such as
    a card, causes no request either. *)
Lemma subscribeCb_other_facility (idx : Z) (b : AudioBackend) :
  subscribeCb (Z.lor PA_SUBSCRIPTION_EVENT_CARD PA_SUBSCRIPTION_EVENT_CHANGE) idx b
  = (b, []).
Proof. reflexivity. Qed.

(** ** Completion of a volume change *)

(** C8.  Completion of a volume-change request.  The backend object is
    unchanged in every case.  On success with the connection ready, the
    only effect is a request for the sink with the stored index
    [sink_idx_], answered by [sinkInfoCb]; on success with the connection
    not ready, nothing happens.  On failure, the only effect is one debug
    line: no request at all is issued. *)
Theorem volumeModifyCb_completion (success : Z) (b : AudioBackend) :
  let r := volumeModifyCb success b in
  fst r = b
  /\ (success <> 0 -> context_ready b = true ->
      snd r = [pa_context_get_sink_info_by_index (sink_idx_ b) cb_sinkInfoCb])
  /\ (success <> 0 -> context_ready b = false -> snd r = [])
  /\ (success = 0 ->
      snd r = [spdlog lvl_debug "Volume modification failed"]
      /\ requests (snd r) = []).
Proof.
  cbv zeta. unfold volumeModifyCb.
  destruct (Z.eqb_spec success 0) as [H0|H0]; simpl negb; cbv iota.
  - split; [reflexivity|]. split; [intros Hne; contradiction|].
    split; [intros Hne; contradiction|]. intros _. split; reflexivity.
  - destruct (context_ready b).
    + split; [reflexivity|]. split; [reflexivity|].
      split; [discriminate | intros Hs; contradiction].
    + split; [reflexivity|]. split; [discriminate|].
      split; [reflexivity | intros Hs; contradiction].
Qed.

Lemma volumeModifyCb_completion_witness :
  let b := set_sink_idx_ 3 Examples.announced in
  snd (volumeModifyCb 1 b) = [pa_context_get_sink_info_by_index 3 cb_sinkInfoCb]
  /\ requests (snd (volumeModifyCb 0 b)) = [].
Proof.
  intros b. split.
  - destruct (volumeModifyCb_completion 1 b) as (_ & H & _).
    apply H; [discriminate | reflexivity].
  - destruct (volumeModifyCb_completion 0 b) as (_ & _ & _ & H).
    apply (H eq_refl).
Defined.

(** ** Server info *)

(** C10.  A server info response overwrites the current sink name with
    the reported default sink name, whatever it was, and stores the
    default sink and source names; nothing else in the backend changes.
    Its only effects are the requests for the sink list and then the
    source list: no descriptor is examined and no notification fires
    inside the callback.  Hence a current sink with another name stops
    being current at once. *)
Theorem serverInfoCb_overwrites_current (i : pa_server_info) (b : AudioBackend) :
  let b' := fst (serverInfoCb i b) in
  current_sink_name_ b' = sv_default_sink_name i
  /\ default_sink_name b' = sv_default_sink_name i
  /\ default_source_name_ b' = sv_default_source_name i
  /\ b' = set_default_source_name_ (sv_default_source_name i)
            (set_default_sink_name (sv_default_sink_name i)
               (set_current_sink_name_ (sv_default_sink_name i) b))
  /\ current_sink_running_ b' = current_sink_running_ b
  /\ snd (serverInfoCb i b)
     = [pa_context_get_sink_info_list cb_sinkInfoCb;
        pa_context_get_source_info_list cb_sourceInfoCb]
  /\ (current_sink_name_ b <> sv_default_sink_name i ->
      current_sink_name_ b' <> current_sink_name_ b).
Proof.
  cbv zeta. unfold serverInfoCb. simpl.
  repeat split. intros Hne Heq. apply Hne. symmetry. exact Heq.
Qed.

(** A backend whose current sink is "Y" hears that the default is "X". *)
Lemma serverInfoCb_overwrites_current_witness :
  let b := set_current_sink_running_ true
             (set_current_sink_name_ "Y" Examples.announced) in
  let i := {| sv_default_sink_name := "X"; sv_default_source_name := "mic" |} in
  current_sink_name_ b = "Y"
  /\ current_sink_name_ (fst (serverInfoCb i b)) = "X"
  /\ current_sink_name_ (fst (serverInfoCb i b)) <> current_sink_name_ b.
Proof.
  intros b i. split; [reflexivity|].
  destruct (serverInfoCb_overwrites_current i b) as (Hcur & _ & _ & _ & _ & _ & Hne).
  split; [exact Hcur|]. apply Hne. discriminate.
Defined.

(** ** Mute toggles *)

(** What the flip form of the source toggle computes: the new source
    flag is the negation of the sink flag [muted_]; the sink flag itself
    and everything else stay, and the source mute request carries the
    new flag. *)
Lemma toggleSourceMute_spec (b : AudioBackend) :
  toggleSourceMute b
  = (set_source_muted_ (negb (muted_ b)) b,
     [pa_threaded_mainloop_lock;
      pa_context_set_source_mute_by_index (source_idx_ b)
        (int_of_bool (negb (muted_ b))) cb_nullptr;
      pa_threaded_mainloop_unlock]).
Proof. reflexivity. Qed.

(** The sink toggle, for comparison, negates the flag it writes. *)
Lemma toggleSinkMute_spec (b : AudioBackend) :
  toggleSinkMute b
  = (set_muted_ (negb (muted_ b)) b,
     [pa_threaded_mainloop_lock;
      pa_context_set_sink_mute_by_index (sink_idx_ b)
        (int_of_bool (negb (muted_ b))) cb_nullptr;
      pa_threaded_mainloop_unlock]).
Proof. reflexivity. Qed.

(** C5.  The flip form of the source toggle at a backend whose sink is
    muted and whose source is not: the source flag stays false (and the
    request sent mutes nothing), where the negation of the source flag's
    own previous value would be true.  The sink flag is left unchanged. *)
Theorem toggleSourceMute_flips_wrong_flag :
  let b := set_muted_ true Examples.announced in
  let r := toggleSourceMute b in
  muted_ b = true /\ source_muted_ b = false
  /\ source_muted_ (fst r) = false
  /\ source_muted_ (fst r) <> negb (source_muted_ b)
  /\ muted_ (fst r) = muted_ b
  /\ requests (snd r) = [pa_context_set_source_mute_by_index 0 0 cb_nullptr].
Proof. vm_compute. repeat split; discriminate. Qed.

(** ** Calls on a connection that is not ready *)

(** The mute toggles do not look at the connection: on a connection
    that is still connecting, the flip form changes the local flag and
    issues the mute request, for the sink and for the source alike. *)
Lemma toggles_ignore_connection_state :
  let b := Examples.with_context (Some PA_CONTEXT_CONNECTING) Examples.announced in
  context_ready b = false
  /\ muted_ (fst (toggleSinkMute b)) <> muted_ b
  /\ fst (toggleSinkMute b) <> b
  /\ requests (snd (toggleSinkMute b))
     = [pa_context_set_sink_mute_by_index 0 1 cb_nullptr]
  /\ source_muted_ (fst (toggleSourceMute b)) <> source_muted_ b
  /\ requests (snd (toggleSourceMute b))
     = [pa_context_set_source_mute_by_index 0 1 cb_nullptr]
  /\ (forall l msg, ~ In (spdlog l msg) (snd (toggleSinkMute b))).
Proof.
  vm_compute. repeat split; try discriminate.
  intros l msg [H|[H|[H|[]]]]; discriminate.
Qed.

(** C4, as the code has it.  Both volume entry points, called while the
    connection is not ready (null handle, or any state other than
    READY), leave the backend exactly as it was, issue no request and no
    lock operation, and log one error line; this is their whole effect. *)
Theorem changeVolume_not_ready (b : AudioBackend) :
  context_ready b = false ->
  (forall volume min_volume max_volume,
      changeVolume volume min_volume max_volume b
      = (b, [spdlog lvl_error "PulseAudio context not ready"]))
  /\ (forall change_type step max_volume,
         changeVolume_ChangeType change_type step max_volume b
         = (b, [spdlog lvl_error "PulseAudio context not ready"]))
  /\ requests [spdlog lvl_error "PulseAudio context not ready"] = [].
Proof.
  intros Hnr. unfold changeVolume, changeVolume_ChangeType.
  rewrite Hnr. simpl negb. cbv iota. repeat split.
Qed.

Lemma changeVolume_not_ready_witness :
  let b := Examples.with_context (Some PA_CONTEXT_FAILED) Examples.announced in
  context_ready b = false
  /\ changeVolume 50 0 100 b
     = (b, [spdlog lvl_error "PulseAudio context not ready"])
  /\ changeVolume_ChangeType Increase (F64.of_Z 5) 100 b
     = (b, [spdlog lvl_error "PulseAudio context not ready"]).
Proof.
  intros b.
  assert (Hnr : context_ready b = false) by reflexivity.
  destruct (changeVolume_not_ready b Hnr) as (Habs & Hrel & _).
  split; [exact Hnr|]. split; [apply Habs | apply Hrel].
Defined.

(** ** The loop over the channels *)

Section ChannelLoop.

Variable body : Z -> Z.

(** After [n] iterations from index [i], exactly the slots
    [i .. i+n-1] have gone through [body]. *)
Lemma channel_loop_lookup (n i : nat) (vals : list Z) (j : nat) :
  channel_loop body i n vals !! j
  = if bool_decide (i <= j < i + n)%nat then body <$> vals !! j else vals !! j.
Proof.
  revert i vals. induction n as [|n IH]; intros i vals; simpl.
  - rewrite bool_decide_eq_false_2 by lia. reflexivity.
  - rewrite IH. destruct (decide (j = i)) as [->|Hne].
    + rewrite bool_decide_eq_false_2 by lia.
      rewrite bool_decide_eq_true_2 by lia.
      apply list_lookup_alter_eq.
    + rewrite list_lookup_alter_ne by congruence.
      destruct (decide (i <= j < i + S n)%nat).
      * rewrite !bool_decide_eq_true_2 by lia. reflexivity.
      * rewrite !bool_decide_eq_false_2 by lia. reflexivity.
Qed.

Lemma channel_loop_length (n i : nat) (vals : list Z) :
  length (channel_loop body i n vals) = length vals.
Proof.
  revert i vals. induction n as [|n IH]; intros i vals; simpl; [reflexivity|].
  rewrite IH. apply length_alter.
Qed.

(** The channels in use all go through [body]; the count stays. *)
Lemma used_values_for_each_channel (v : pa_cvolume) :
  used_values (for_each_channel body v) = body <$> used_values v.
Proof.
  unfold used_values, for_each_channel. simpl.
  set (n := Z.to_nat (channels v)).
  apply list_eq. intros j. rewrite list_lookup_fmap.
  destruct (decide (j < n)%nat) as [Hlt|Hge].
  - rewrite !lookup_take_lt by exact Hlt.
    rewrite channel_loop_lookup.
    rewrite bool_decide_eq_true_2 by lia. reflexivity.
  - rewrite !lookup_take_ge by lia. reflexivity.
Qed.

(** The slots past the channel count are left alone. *)
Lemma unused_values_for_each_channel (v : pa_cvolume) (j : nat) :
  (Z.to_nat (channels v) <= j)%nat ->
  values (for_each_channel body v) !! j = values v !! j.
Proof.
  intros Hj. unfold for_each_channel. simpl.
  rewrite channel_loop_lookup.
  rewrite bool_decide_eq_false_2 by lia. reflexivity.
Qed.

Lemma for_each_channel_wf (v : pa_cvolume) :
  cvolume_wf v -> cvolume_wf (for_each_channel body v).
Proof.
  unfold cvolume_wf, for_each_channel. simpl.
  now rewrite channel_loop_length.
Qed.

End ChannelLoop.

Lemma used_values_length (v : pa_cvolume) :
  cvolume_wf v -> pa_channels_valid (channels v) = true ->
  length (used_values v) = Z.to_nat (channels v).
Proof.
  unfold cvolume_wf, pa_channels_valid, used_values, PA_CHANNELS_MAX.
  intros Hwf Hch. apply andb_true_iff in Hch as [_ Hle].
  apply Z.leb_le in Hle. rewrite length_take, Hwf. lia.
Qed.

(** Setting every channel to one value gives that many copies of it. *)
Lemma used_values_uniform (vol : Z) (v : pa_cvolume) :
  cvolume_wf v -> pa_channels_valid (channels v) = true ->
  used_values (for_each_channel (fun _ => vol) v)
  = replicate (Z.to_nat (channels v)) vol.
Proof.
  intros Hwf Hch. rewrite used_values_for_each_channel.
  rewrite (const_fmap (fun _ => vol) _ vol) by reflexivity.
  now rewrite used_values_length.
Qed.

Lemma requests_submit_volume (b : AudioBackend) (v : pa_cvolume) :
  requests (submit_volume b v)
  = [pa_context_set_sink_volume_by_index (sink_idx_ b) v cb_volumeModifyCb].
Proof. reflexivity. Qed.

Lemma stored_volume_usable_channels (b : AudioBackend) :
  stored_volume_usable b = true ->
  pa_channels_valid (channels (pa_volume_ b)) = true.
Proof.
  unfold stored_volume_usable. intros H. now apply andb_true_iff in H as [_ H].
Qed.

Lemma std_clamp_range (v lo hi : Z) :
  lo <= hi -> lo <= std_clamp v lo hi <= hi.
Proof.
  unfold std_clamp. intros Hle.
  destruct (Z.ltb_spec v lo); [lia|]. destruct (Z.ltb_spec hi v); lia.
Qed.

(** ** Absolute volume *)

Lemma base_volume_wf (b : AudioBackend) :
  cvolume_wf (pa_volume_ b) -> cvolume_wf (base_volume b).
Proof.
  unfold base_volume. destruct (stored_volume_usable b); [auto | reflexivity].
Qed.

Lemma base_volume_channels_valid (b : AudioBackend) :
  pa_channels_valid (channels (base_volume b)) = true.
Proof.
  unfold base_volume. destruct (stored_volume_usable b) eqn:Hu; [|reflexivity].
  now apply stored_volume_usable_channels.
Qed.

(** C3.  The absolute overload on a ready connection.  The target is
    clamped with [std::clamp] (into [min_volume, max_volume] when these
    are ordered), converted once to a native value, and the one request
    issued is a sink volume request for [sink_idx_] whose structure has
    the channel count of the structure used (the stored one if usable,
    two channels otherwise) and that same native value in every one of
    its channels.  The backend itself is unchanged. *)
Theorem changeVolume_uniform
  (volume min_volume max_volume : Z) (b : AudioBackend) :
  context_ready b = true ->
  cvolume_wf (pa_volume_ b) ->
  let target := std_clamp volume min_volume max_volume in
  let vol := native_of_percent target in
  let r := changeVolume volume min_volume max_volume b in
  exists v,
    requests (snd r)
    = [pa_context_set_sink_volume_by_index (sink_idx_ b) v cb_volumeModifyCb]
    /\ fst r = b
    /\ channels v = (if stored_volume_usable b
                     then channels (pa_volume_ b) else 2)
    /\ used_values v = replicate (Z.to_nat (channels v)) vol
    /\ (forall c, (c < Z.to_nat (channels v))%nat -> values v !! c = Some vol)
    /\ (min_volume <= max_volume -> min_volume <= target <= max_volume).
Proof.
  intros Hready Hwf target vol r.
  exists (for_each_channel (fun _ => vol) (base_volume b)).
  assert (Hr : r = (b, ((if stored_volume_usable b then []
                         else [spdlog lvl_debug
                                 "Using default stereo volume structure"])
                        ++ submit_volume b
                             (for_each_channel (fun _ => vol) (base_volume b)))%list)).
  { unfold r, changeVolume, base_volume. rewrite Hready. simpl negb. cbv iota.
    destruct (stored_volume_usable b); reflexivity. }
  assert (Hused : used_values (for_each_channel (fun _ => vol) (base_volume b))
                  = replicate (Z.to_nat (channels (base_volume b))) vol).
  { apply used_values_uniform;
      [now apply base_volume_wf | apply base_volume_channels_valid]. }
  rewrite Hr. simpl fst. simpl snd.
  split; [destruct (stored_volume_usable b); reflexivity|].
  split; [reflexivity|].
  split; [unfold base_volume; destruct (stored_volume_usable b); reflexivity|].
  split; [exact Hused|].
  split; [|apply std_clamp_range].
  intros c Hc.
  assert (Hl : used_values (for_each_channel (fun _ => vol) (base_volume b)) !! c
               = Some vol).
  { rewrite Hused. apply lookup_replicate_2. exact Hc. }
  unfold used_values in Hl. rewrite lookup_take_lt in Hl by exact Hc. exact Hl.
Qed.

(** Fifty percent on a six-channel sink: six times 32768. *)
Lemma changeVolume_uniform_witness :
  let six := {| channels := 6;
                values := [100; 200; 300; 400; 500; 600]
                            ++ replicate 26 PA_VOLUME_INVALID |} in
  let b := set_pa_volume_ six Examples.announced in
  context_ready b = true /\ cvolume_wf (pa_volume_ b)
  /\ exists v,
      requests (snd (changeVolume 50 0 100 b))
      = [pa_context_set_sink_volume_by_index 0 v cb_volumeModifyCb]
      /\ used_values v = replicate 6 32768.
Proof.
  intros six b.
  assert (Hready : context_ready b = true) by reflexivity.
  assert (Hwf : cvolume_wf (pa_volume_ b)) by reflexivity.
  split; [exact Hready|]. split; [exact Hwf|].
  destruct (changeVolume_uniform 50 0 100 b Hready Hwf)
    as (v & Hreq & _ & Hch & Hused & _).
  exists v. split; [exact Hreq|].
  rewrite Hused, Hch. reflexivity.
Defined.

(** ** Relative step *)

(** The readiness test comes first: with no usable stored structure, a
    relative step on a connection that is not ready submits nothing. *)
Lemma bootstrap_needs_ready :
  let b := Examples.with_context (Some PA_CONTEXT_CONNECTING) Examples.fresh in
  stored_volume_usable b = false
  /\ context_ready b = false
  /\ requests (snd (changeVolume_ChangeType Increase (F64.of_Z 5) 100 b)) = []
  /\ snd (changeVolume_ChangeType Increase (F64.of_Z 5) 100 b)
     = [spdlog lvl_error "PulseAudio context not ready"].
Proof. vm_compute. repeat split. Qed.

(** C7.  Past the readiness test, with no usable stored structure, the
    relative step, whatever its direction, step and maximum (and so
    whatever the boundary conditions), leaves the backend unchanged,
    logs one debug line and submits for [sink_idx_] a structure of two
    channels, both at the native value of the current percentage
    [volume_]. *)
Theorem bootstrap_submits_current
  (change_type : ChangeType) (step : spec_float) (max_volume : Z)
  (b : AudioBackend) :
  context_ready b = true ->
  stored_volume_usable b = false ->
  let vol := native_of_percent (volume_ b) in
  let v := {| channels := 2;
              values := vol :: vol :: replicate 30 PA_VOLUME_INVALID |} in
  changeVolume_ChangeType change_type step max_volume b
  = (b, spdlog lvl_debug "Using default stereo volume structure"
          :: submit_volume b v)
  /\ used_values v = [vol; vol]
  /\ requests (snd (changeVolume_ChangeType change_type step max_volume b))
     = [pa_context_set_sink_volume_by_index (sink_idx_ b) v cb_volumeModifyCb].
Proof.
  intros Hready Hun vol v.
  assert (Heq : changeVolume_ChangeType change_type step max_volume b
                = (b, spdlog lvl_debug "Using default stereo volume structure"
                        :: submit_volume b v)).
  { unfold changeVolume_ChangeType. rewrite Hready, Hun. reflexivity. }
  rewrite Heq. repeat split.
Qed.

(** A decrease at volume 0, which would be a no-op with a usable
    structure, is submitted all the same. *)
Lemma bootstrap_submits_current_witness :
  let b := Examples.fresh in
  context_ready b = true /\ stored_volume_usable b = false
  /\ requests (snd (changeVolume_ChangeType Decrease (F64.of_Z 5) 100 b))
     = [pa_context_set_sink_volume_by_index 0 (Examples.stereo 0 0)
          cb_volumeModifyCb].
Proof.
  intros b.
  assert (Hready : context_ready b = true) by reflexivity.
  assert (Hun : stored_volume_usable b = false) by reflexivity.
  split; [exact Hready|]. split; [exact Hun|].
  destruct (bootstrap_submits_current Decrease (F64.of_Z 5) 100 b Hready Hun)
    as (_ & _ & Hreq).
  rewrite Hreq. reflexivity.
Defined.

Lemma clamped_max_value (max_volume : Z) :
  clamped_max max_volume = Z.min max_volume 34421.
Proof. reflexivity. Qed.

(** The relative step with a usable stored structure, case by case. *)
Lemma step_increase (step : spec_float) (max_volume : Z) (b : AudioBackend) :
  context_ready b = true -> stored_volume_usable b = true ->
  volume_ b < clamped_max max_volume ->
  changeVolume_ChangeType Increase step max_volume b
  = (b, submit_volume b
          (for_each_channel
             (fun x => Z.min (wrap32 (x + increase_change (volume_ b) step
                                            (clamped_max max_volume)))
                         PA_VOLUME_MAX)
             (pa_volume_ b))).
Proof.
  intros Hready Hu Hlt. unfold changeVolume_ChangeType.
  rewrite Hready, Hu. simpl negb. cbv iota. cbv zeta.
  apply Z.ltb_lt in Hlt. rewrite Hlt. reflexivity.
Qed.

Lemma step_decrease (step : spec_float) (max_volume : Z) (b : AudioBackend) :
  context_ready b = true -> stored_volume_usable b = true ->
  0 < volume_ b ->
  changeVolume_ChangeType Decrease step max_volume b
  = (b, submit_volume b
          (for_each_channel
             (fun x => if decrease_change (volume_ b) step <? x
                       then x - decrease_change (volume_ b) step else 0)
             (pa_volume_ b))).
Proof.
  intros Hready Hu Hlt. unfold changeVolume_ChangeType.
  rewrite Hready, Hu. simpl negb. cbv iota. cbv zeta.
  apply Z.ltb_lt in Hlt. rewrite Hlt. reflexivity.
Qed.

Lemma step_noop (change_type : ChangeType) (step : spec_float)
  (max_volume : Z) (b : AudioBackend) :
  context_ready b = true -> stored_volume_usable b = true ->
  (change_type = Increase /\ clamped_max max_volume <= volume_ b)
  \/ (change_type = Decrease /\ volume_ b <= 0) ->
  changeVolume_ChangeType change_type step max_volume b = (b, []).
Proof.
  intros Hready Hu Hcase. unfold changeVolume_ChangeType.
  rewrite Hready, Hu. simpl negb. cbv iota. cbv zeta.
  destruct Hcase as [[-> Hge] | [-> Hle]]; simpl is_Increase; simpl is_Decrease.
  - apply Z.ltb_ge in Hge. rewrite Hge. reflexivity.
  - apply Z.ltb_ge in Hle. rewrite Hle. reflexivity.
Qed.

Lemma to_unsigned_range (w : Z) (x : spec_float) :
  0 <= w -> 0 <= IEEE.to_unsigned w x < 2 ^ w.
Proof.
  intros Hw. unfold IEEE.to_unsigned.
  assert (Hpos : 0 < 2 ^ w) by (apply Z.pow_pos_nonneg; lia).
  destruct (IEEE.trunc_Z x); [apply Z.mod_pos_bound; exact Hpos | lia].
Qed.

(** An increase can carry a channel, and the rounded percentage of the
    whole sink, past the maximum given; and nothing is submitted on a
    connection that is not ready.
    - A stereo sink at 0 and 200 percent shows as 100; an increase by 10
      with maximum 150 sends the right channel to 137626, which is 210
      percent, where 150 percent is 98304.
    - A stereo sink at 63242 on both channels shows as 96; an increase
      by 2 with maximum 98 sends both channels to 64553, which shows as 99.
    - On a connecting context an increase below the maximum submits
      nothing. *)
Lemma step_increase_exceeds_max :
  let unbalanced :=
    fst (sinkInfoCb (Some (Examples.sink "X" "Speakers" PA_SINK_RUNNING
                             (Examples.stereo 0 131072)))
           Examples.announced) in
  let uniform :=
    fst (sinkInfoCb (Some (Examples.sink "X" "Speakers" PA_SINK_RUNNING
                             (Examples.stereo 63242 63242)))
           Examples.announced) in
  (context_ready unbalanced = true /\ stored_volume_usable unbalanced = true
   /\ volume_ unbalanced = 100 /\ clamped_max 150 = 150
   /\ exists v,
       snd (changeVolume_ChangeType Increase (F64.of_Z 10) 150 unbalanced)
       = submit_volume unbalanced v
       /\ used_values v = [6554; 137626]
       /\ native_of_percent (clamped_max 150) = 98304
       /\ percent_of_native 137626 = 210)
  /\ (context_ready uniform = true /\ stored_volume_usable uniform = true
      /\ volume_ uniform = 96 /\ clamped_max 98 = 98
      /\ exists v,
          snd (changeVolume_ChangeType Increase (F64.of_Z 2) 98 uniform)
          = submit_volume uniform v
          /\ used_values v = [64553; 64553]
          /\ native_of_percent (clamped_max 98) = 64225
          /\ percent_of_native (pa_cvolume_avg v) = 99)
  /\ (let b := Examples.with_context (Some PA_CONTEXT_CONNECTING) uniform in
      stored_volume_usable b = true /\ volume_ b < clamped_max 98
      /\ requests (snd (changeVolume_ChangeType Increase (F64.of_Z 2) 98 b)) = []).
Proof.
  cbv zeta. split; [|split].
  - do 4 (split; [vm_compute; reflexivity|]).
    eexists. split; [vm_compute; reflexivity|].
    repeat split; vm_compute; reflexivity.
  - do 4 (split; [vm_compute; reflexivity|]).
    eexists. split; [vm_compute; reflexivity|].
    repeat split; vm_compute; reflexivity.
  - repeat split; vm_compute; reflexivity.
Qed.

(** C2, as the code has it.  The relative step on a ready connection
    with a usable stored structure never changes the backend, and:
    - an increase below the clamped maximum submits a structure with the
      same channel count in which each channel is
      [min(old + change, PA_VOLUME_MAX)], hence no channel is above the
      server's absolute maximum;
    - a decrease above zero submits a structure with the same channel
      count in which each channel is [old - change] if [old > change] and
      0 otherwise, hence no channel is below zero;
    - no request is submitted exactly when an increase is asked for at or
      above the clamped maximum, or a decrease at or below zero. *)
Theorem step_volume_bounds
  (change_type : ChangeType) (step : spec_float) (max_volume : Z)
  (b : AudioBackend) :
  context_ready b = true ->
  stored_volume_usable b = true ->
  let r := changeVolume_ChangeType change_type step max_volume b in
  fst r = b
  /\ (change_type = Increase -> volume_ b < clamped_max max_volume ->
      exists v,
        snd r = submit_volume b v
        /\ channels v = channels (pa_volume_ b)
        /\ used_values v
           = (fun x => Z.min (wrap32 (x + increase_change (volume_ b) step
                                            (clamped_max max_volume)))
                         PA_VOLUME_MAX) <$> used_values (pa_volume_ b)
        /\ Forall (fun x => x <= PA_VOLUME_MAX) (used_values v))
  /\ (change_type = Decrease -> 0 < volume_ b ->
      exists v,
        snd r = submit_volume b v
        /\ channels v = channels (pa_volume_ b)
        /\ used_values v
           = (fun x => if decrease_change (volume_ b) step <? x
                       then x - decrease_change (volume_ b) step else 0)
               <$> used_values (pa_volume_ b)
        /\ Forall (fun x => 0 <= x) (used_values v))
  /\ (requests (snd r) = []
      <-> (change_type = Increase /\ clamped_max max_volume <= volume_ b)
          \/ (change_type = Decrease /\ volume_ b <= 0)).
Proof.
  intros Hready Hu r. subst r.
  split; [|split; [|split]].
  - unfold changeVolume_ChangeType. rewrite Hready, Hu. simpl negb.
    cbv iota zeta.
    repeat match goal with |- context [if ?c then _ else _] => destruct c end;
      reflexivity.
  - intros -> Hlt. rewrite (step_increase step max_volume b Hready Hu Hlt).
    eexists. split; [reflexivity|]. split; [reflexivity|].
    rewrite used_values_for_each_channel. split; [reflexivity|].
    apply Forall_fmap, Forall_forall. intros x _. simpl. apply Z.le_min_r.
  - intros -> Hlt. rewrite (step_decrease step max_volume b Hready Hu Hlt).
    eexists. split; [reflexivity|]. split; [reflexivity|].
    rewrite used_values_for_each_channel. split; [reflexivity|].
    apply Forall_fmap, Forall_forall. intros x _. simpl.
    pose proof (to_unsigned_range 32 (if IEEE.ltb
                   (F64.sub (F64.of_Z (volume_ b)) step) (F64.of_Z 0)
                 then F64.round (F64.mul (F64.of_Z (volume_ b)) volume_tick)
                 else F64.round (F64.mul step volume_tick)) ltac:(lia)) as Hc.
    fold (uint32_of_float (if IEEE.ltb
                   (F64.sub (F64.of_Z (volume_ b)) step) (F64.of_Z 0)
                 then F64.round (F64.mul (F64.of_Z (volume_ b)) volume_tick)
                 else F64.round (F64.mul step volume_tick))) in Hc.
    fold (decrease_change (volume_ b) step) in Hc.
    destruct (Z.ltb_spec (decrease_change (volume_ b) step) x); lia.
  - split.
    + intros Hnone. destruct change_type.
      * left. split; [reflexivity|].
        destruct (Z.lt_ge_cases (volume_ b) (clamped_max max_volume)) as [Hlt|Hge];
          [|exact Hge].
        rewrite (step_increase step max_volume b Hready Hu Hlt) in Hnone.
        discriminate Hnone.
      * right. split; [reflexivity|].
        destruct (Z.lt_ge_cases 0 (volume_ b)) as [Hlt|Hge]; [|exact Hge].
        rewrite (step_decrease step max_volume b Hready Hu Hlt) in Hnone.
        discriminate Hnone.
    + intros Hcase.
      rewrite (step_noop change_type step max_volume b Hready Hu Hcase).
      reflexivity.
Qed.

(** At 63242 on both channels (96 percent), an increase by 2 is
    submitted with maximum 98 and is a no-op with maximum 96. *)
Lemma step_volume_bounds_witness :
  let b := fst (sinkInfoCb (Some (Examples.sink "X" "Speakers" PA_SINK_RUNNING
                                    (Examples.stereo 63242 63242)))
                  Examples.announced) in
  context_ready b = true /\ stored_volume_usable b = true
  /\ requests (snd (changeVolume_ChangeType Increase (F64.of_Z 2) 96 b)) = []
  /\ exists v,
      snd (changeVolume_ChangeType Increase (F64.of_Z 2) 98 b)
      = submit_volume b v
      /\ Forall (fun x => x <= PA_VOLUME_MAX) (used_values v).
Proof.
  intros b.
  assert (Hready : context_ready b = true) by (vm_compute; reflexivity).
  assert (Hu : stored_volume_usable b = true) by (vm_compute; reflexivity).
  split; [exact Hready|]. split; [exact Hu|]. split.
  - destruct (step_volume_bounds Increase (F64.of_Z 2) 96 b Hready Hu)
      as (_ & _ & _ & Hnone).
    apply Hnone. left. split; [reflexivity|]. vm_compute. discriminate.
  - destruct (step_volume_bounds Increase (F64.of_Z 2) 98 b Hready Hu)
      as (_ & Hinc & _).
    destruct (Hinc eq_refl) as (v & Hv & _ & _ & Hall);
      [vm_compute; reflexivity|].
    exists v. split; [exact Hv | exact Hall].
Defined.

(** ** Round trip of a percentage *)

Lemma range_all_spec (f : Z -> bool) (n : nat) (start z : Z) :
  range_all f start n = true ->
  start <= z < start + Z.of_nat n -> f z = true.
Proof.
  revert start. induction n as [|n IH]; intros start Hall Hz; [lia|].
  simpl in Hall. apply andb_true_iff in Hall as [Hhere Hrest].
  destruct (Z.eq_dec z start) as [->|Hne]; [exact Hhere|].
  apply (IH (start + 1)); [exact Hrest | lia].
Qed.

(** Every 16-bit percentage, by evaluation of both conversions. *)
Lemma roundtrip_all : range_all roundtrip_ok 0 (Z.to_nat 65536) = true.
Proof. vm_compute. reflexivity. Qed.

Lemma roundtrip_exact (p : Z) :
  0 <= p < 65536 ->
  native_of_percent p <= PA_VOLUME_MAX
  /\ percent_of_native (native_of_percent p) = p.
Proof.
  intros Hp.
  pose proof (range_all_spec roundtrip_ok (Z.to_nat 65536) 0 p roundtrip_all) as H.
  rewrite Z2Nat.id in H by lia. specialize (H ltac:(lia)).
  unfold roundtrip_ok in H. cbv zeta in H.
  apply andb_true_iff in H as [Hle Heq].
  split; [now apply Z.leb_le | now apply Z.eqb_eq].
Qed.

Lemma fold_add_replicate (n : nat) (v acc : Z) :
  fold_left Z.add (replicate n v) acc = acc + Z.of_nat n * v.
Proof.
  revert acc. induction n as [|n IH]; intros acc.
  - simpl. lia.
  - change (replicate (S n) v) with (v :: replicate n v).
    simpl fold_left. rewrite IH. lia.
Qed.

Lemma sum_values_replicate (n : nat) (v : Z) :
  sum_values (replicate n v) = Z.of_nat n * v.
Proof. unfold sum_values. rewrite fold_add_replicate. lia. Qed.

Lemma forallb_replicate {A} (f : A -> bool) (n : nat) (x : A) :
  f x = true -> forallb f (replicate n x) = true.
Proof.
  intros Hx. induction n as [|n IH]; [reflexivity|].
  change (replicate (S n) x) with (x :: replicate n x).
  simpl. now rewrite Hx, IH.
Qed.

(** A structure with one value on every channel is valid and has that
    value as its average. *)
Lemma pa_cvolume_avg_uniform (vol : Z) (v : pa_cvolume) :
  cvolume_wf v -> pa_channels_valid (channels v) = true ->
  vol <= PA_VOLUME_MAX ->
  pa_cvolume_valid (for_each_channel (fun _ => vol) v) = true
  /\ pa_cvolume_avg (for_each_channel (fun _ => vol) v) = vol.
Proof.
  intros Hwf Hch Hvol.
  assert (Hvalid : pa_cvolume_valid (for_each_channel (fun _ => vol) v) = true).
  { unfold pa_cvolume_valid. rewrite used_values_uniform by assumption.
    change (channels (for_each_channel (fun _ => vol) v)) with (channels v).
    rewrite Hch. simpl. apply forallb_replicate.
    unfold PA_VOLUME_IS_VALID. now apply Z.leb_le. }
  split; [exact Hvalid|].
  unfold pa_cvolume_avg. rewrite Hvalid.
  rewrite used_values_uniform by assumption.
  change (channels (for_each_channel (fun _ => vol) v)) with (channels v).
  rewrite sum_values_replicate.
  unfold pa_channels_valid in Hch. apply andb_true_iff in Hch as [Hpos _].
  apply Z.ltb_lt in Hpos.
  rewrite Z2Nat.id by lia. rewrite Z.mul_comm. apply Z.div_mul. lia.
Qed.

(** The round trip is exact: the percentage read back from the
    structure the absolute overload builds is the clamped target. *)
Lemma clamped_target_reads_back (target min_volume max_volume : Z) (v : pa_cvolume) :
  0 <= target < 65536 -> 0 <= min_volume -> max_volume < 65536 ->
  min_volume <= max_volume ->
  cvolume_wf v -> pa_channels_valid (channels v) = true ->
  let p := std_clamp target min_volume max_volume in
  percent_of_native
    (pa_cvolume_avg (for_each_channel (fun _ => native_of_percent p) v)) = p.
Proof.
  intros Ht Hmin Hmax Hle Hwf Hch p.
  pose proof (std_clamp_range target min_volume max_volume Hle) as Hp.
  fold p in Hp.
  destruct (roundtrip_exact p ltac:(lia)) as [Hvol Hrt].
  destruct (pa_cvolume_avg_uniform (native_of_percent p) v Hwf Hch Hvol)
    as [_ Havg].
  rewrite Havg. exact Hrt.
Qed.

(** The conversions alone: the percentage of a structure filled with
    the native value of the clamped target lies in
    [[min_volume, max_volume]] and is within 1 of the clamped target. *)
Lemma roundtrip_conversions_in_bounds
  (target min_volume max_volume : Z) (v : pa_cvolume) :
  0 <= target < 65536 -> 0 <= min_volume -> max_volume < 65536 ->
  min_volume <= max_volume ->
  cvolume_wf v -> pa_channels_valid (channels v) = true ->
  let p := std_clamp target min_volume max_volume in
  let sent := for_each_channel (fun _ => native_of_percent p) v in
  let r := percent_of_native (pa_cvolume_avg sent) in
  min_volume <= r <= max_volume /\ p - 1 <= r <= p + 1.
Proof.
  intros Ht Hmin Hmax Hle Hwf Hch p sent r.
  assert (Hr : r = p)
    by (apply clamped_target_reads_back; assumption).
  pose proof (std_clamp_range target min_volume max_volume Hle) as Hp.
  fold p in Hp. rewrite Hr. lia.
Qed.

(** Target 130 with bounds 0 and 100 on a stereo structure reads back 100. *)
Lemma roundtrip_conversions_in_bounds_example :
  let v := Examples.stereo 1000 2000 in
  let sent := for_each_channel
                (fun _ => native_of_percent (std_clamp 130 0 100)) v in
  (0 <= 130 < 65536 /\ 0 <= 0 /\ 100 < 65536 /\ 0 <= 100)
  /\ cvolume_wf v /\ pa_channels_valid (channels v) = true
  /\ 0 <= percent_of_native (pa_cvolume_avg sent) <= 100.
Proof.
  intros v sent.
  assert (Hwf : cvolume_wf v) by reflexivity.
  assert (Hch : pa_channels_valid (channels v) = true) by reflexivity.
  split; [lia|]. split; [exact Hwf|]. split; [exact Hch|].
  exact (proj1 (roundtrip_conversions_in_bounds 130 0 100 v ltac:(lia)
                  ltac:(lia) ltac:(lia) ltac:(lia) Hwf Hch)).
Qed.

(** The same through the two functions: what [changeVolume] submits on
    a ready connection, handed back by the server and copied by the sink
    callback, shows the clamped target as [volume_]. *)
Lemma changeVolume_then_copy_sink
  (target min_volume max_volume : Z) (b b' : AudioBackend) (i : pa_sink_info) :
  0 <= target < 65536 -> 0 <= min_volume -> max_volume < 65536 ->
  min_volume <= max_volume ->
  context_ready b = true -> cvolume_wf (pa_volume_ b) ->
  requests (snd (changeVolume target min_volume max_volume b))
  = [pa_context_set_sink_volume_by_index (sink_idx_ b) (si_volume i)
       cb_volumeModifyCb] ->
  volume_ (fst (copy_sink i b')) = std_clamp target min_volume max_volume.
Proof.
  intros Ht Hmin Hmax Hle Hready Hwf Hreq.
  assert (Hsent : si_volume i
                  = for_each_channel
                      (fun _ => native_of_percent
                                  (std_clamp target min_volume max_volume))
                      (base_volume b)).
  { unfold changeVolume, base_volume in *. rewrite Hready in Hreq.
    simpl negb in Hreq. cbv iota zeta in Hreq.
    destruct (stored_volume_usable b); simpl in Hreq;
      injection Hreq as Hv; symmetry; exact Hv. }
  pose proof (std_clamp_range target min_volume max_volume Hle) as Hp.
  destruct (roundtrip_exact (std_clamp target min_volume max_volume) ltac:(lia))
    as [Hvol Hrt].
  destruct (pa_cvolume_avg_uniform _ (base_volume b)
              (base_volume_wf b Hwf) (base_volume_channels_valid b) Hvol)
    as [Hvalid Havg].
  unfold copy_sink. rewrite Hsent, Hvalid. simpl.
  rewrite Havg. exact Hrt.
Qed.


(** * Further properties of the backend *)

(** ** The resolver, case by case *)

(** A descriptor that is not ignored and carries the default sink's
    name: the callback as a sequence of its three updates and the copy. *)
Lemma sinkInfoCb_default_fst (i : pa_sink_info) (b : AudioBackend) :
  ~ In (si_description i) (ignored_sinks_ b) ->
  si_name i = default_sink_name b ->
  let act := sink_active (si_state i) in
  let b1 := set_default_sink_running_ act b in
  let b2 := if String.eqb (current_sink_name_ b) (si_name i)
            then set_current_sink_running_ act b1 else b1 in
  let b3 := if negb (current_sink_running_ b2) && act
            then set_current_sink_running_ true
                   (set_current_sink_name_ (si_name i) b2)
            else b2 in
  fst (sinkInfoCb (Some i) b)
  = (if String.eqb (current_sink_name_ b3) (si_name i)
     then fst (copy_sink i b3) else b3)
  /\ notifications (snd (sinkInfoCb (Some i) b))
     = (if String.eqb (current_sink_name_ b3) (si_name i)
        then [on_updated_cb_] else []).
Proof.
  intros Hn Hname. cbv zeta. unfold sinkInfoCb.
  rewrite (ignored_loop_miss _ _ _ Hn).
  assert (Hd : String.eqb (default_sink_name b) (si_name i) = true)
    by (rewrite Hname; apply String.eqb_refl).
  assert (Hd' : String.eqb (si_name i) (default_sink_name b) = true)
    by (rewrite Hname; apply String.eqb_refl).
  destruct (negb (vector_empty (ignored_sinks_ b))); cbv zeta;
    rewrite Hd; simpl default_sink_name; rewrite Hd'; simpl negb; cbv iota;
    simpl andb;
    destruct (String.eqb (current_sink_name_ b) (si_name i)) eqn:Hc;
    destruct (sink_active (si_state i)) eqn:Ha;
    destruct (current_sink_running_ b) eqn:Hr;
    simpl; rewrite ?Hr; simpl; rewrite ?String.eqb_refl, ?Hc; simpl;
    unfold copy_sink; destruct (pa_cvolume_valid (si_volume i));
    split; simpl; rewrite ?Hc, ?String.eqb_refl; reflexivity.
Qed.

Lemma copy_sink_frame (i : pa_sink_info) (b : AudioBackend) :
  current_sink_name_ (fst (copy_sink i b)) = current_sink_name_ b
  /\ default_sink_name (fst (copy_sink i b)) = default_sink_name b
  /\ current_sink_running_ (fst (copy_sink i b)) = current_sink_running_ b
  /\ default_sink_running_ (fst (copy_sink i b)) = default_sink_running_ b
  /\ ignored_sinks_ (fst (copy_sink i b)) = ignored_sinks_ b.
Proof.
  unfold copy_sink. destruct (pa_cvolume_valid (si_volume i)); repeat split.
Qed.

(** Every event other than a sink or server info leaves alone all that
    describes the current sink, except its mute flag. *)
Lemma step_frame (e : event) (b : AudioBackend) :
  match e with ev_sinkInfo _ | ev_serverInfo _ => False | _ => True end ->
  let b' := fst (step e b) in
  pa_volume_ b' = pa_volume_ b /\ sink_idx_ b' = sink_idx_ b
  /\ volume_ b' = volume_ b /\ port_name_ b' = port_name_ b
  /\ form_factor_ b' = form_factor_ b /\ desc_ b' = desc_ b
  /\ monitor_ b' = monitor_ b
  /\ current_sink_name_ b' = current_sink_name_ b
  /\ default_sink_name b' = default_sink_name b
  /\ default_sink_running_ b' = default_sink_running_ b
  /\ current_sink_running_ b' = current_sink_running_ b
  /\ ignored_sinks_ b' = ignored_sinks_ b.
Proof.
  destruct e as [type idx|success|i|i|i|v lo hi|ct st mx| |m| |m|c];
    cbv zeta; simpl step; try contradiction; intros _.
  - unfold subscribeCb.
    repeat match goal with |- context [if ?c then _ else _] => destruct c end;
      repeat split.
  - unfold volumeModifyCb.
    repeat match goal with |- context [if ?c then _ else _] => destruct c end;
      repeat split.
  - unfold sourceInfoCb. destruct i as [i|]; [|repeat split].
    destruct (String.eqb _ _); repeat split.
  - unfold changeVolume. destruct (negb (context_ready b)); [repeat split|].
    destruct (stored_volume_usable b); repeat split.
  - unfold changeVolume_ChangeType.
    repeat match goal with |- context [if ?c then _ else _] => destruct c end;
      repeat split.
  - repeat split.
  - repeat split.
  - repeat split.
  - repeat split.
  - repeat split.
Qed.

Lemma sinkInfoCb_default_sink_name (i : option pa_sink_info) (b : AudioBackend) :
  default_sink_name (fst (sinkInfoCb i b)) = default_sink_name b.
Proof.
  destruct i as [i|]; [|reflexivity].
  destruct (in_dec String.string_dec (si_description i) (ignored_sinks_ b))
    as [Hin|Hn].
  - rewrite (sinkInfoCb_ignored i b Hin). simpl.
    destruct (String.eqb _ _); reflexivity.
  - unfold sinkInfoCb. rewrite (ignored_loop_miss _ _ _ Hn).
    destruct (negb (vector_empty (ignored_sinks_ b))); cbv zeta;
      repeat match goal with
             | |- context [if ?c then _ else _] => destruct c
             | |- context [copy_sink ?x ?y] => unfold copy_sink
             end; reflexivity.
Qed.

(** While the current sink is the default sink, no sink delivery changes
    the current sink's name. *)
Lemma sinkInfoCb_current_name (i : option pa_sink_info) (b : AudioBackend) :
  current_sink_name_ b = default_sink_name b ->
  current_sink_name_ (fst (sinkInfoCb i b)) = current_sink_name_ b.
Proof.
  intros Hinv. destruct i as [i|]; [|reflexivity].
  destruct (in_dec String.string_dec (si_description i) (ignored_sinks_ b))
    as [Hin|Hn].
  - rewrite (sinkInfoCb_ignored i b Hin). simpl.
    destruct (String.eqb _ _); reflexivity.
  - destruct (String.string_dec (si_name i) (default_sink_name b)) as [He|Hne].
    + destruct (sinkInfoCb_default_fst i b Hn He) as [Hfst _].
      cbv zeta in Hfst.
      assert (Hc : String.eqb (current_sink_name_ b) (si_name i) = true)
        by (rewrite Hinv, He; apply String.eqb_refl).
      rewrite Hc in Hfst.
      set (r := fst (sinkInfoCb (Some i) b)) in *.
      destruct (sink_active (si_state i)); simpl in Hfst; rewrite Hc in Hfst;
        rewrite Hfst; rewrite (proj1 (copy_sink_frame _ _)); reflexivity.
    + destruct (sinkInfoCb_non_default i b Hn Hne) as [Hfst _].
      rewrite Hfst. reflexivity.
Qed.

Lemma run_cons (e : event) (es : list event) (b : AudioBackend) :
  run (e :: es) b
  = (fst (run es (fst (step e b))),
     (snd (step e b) ++ snd (run es (fst (step e b))))%list).
Proof.
  simpl. destruct (step e b) as [b1 t1]. simpl.
  destruct (run es b1) as [b2 t2]. reflexivity.
Qed.

(** A property every allowed event preserves holds after any run of
    allowed events. *)
Lemma run_preserves (P : AudioBackend -> Prop) (Q : event -> Prop) :
  (forall e b, Q e -> P b -> P (fst (step e b))) ->
  forall es b, Forall Q es -> P b -> P (fst (run es b)).
Proof.
  intros Hstep es. induction es as [|e es IH]; intros b Hall Hb; [exact Hb|].
  rewrite run_cons. simpl fst.
  apply Forall_cons in Hall as [He Hes].
  apply IH; [exact Hes|]. apply Hstep; assumption.
Qed.

(** X1.  A sink descriptor that is not ignored and does not carry the
    default sink's name is never adopted, whatever its state and whatever
    the backend holds, also when it is running and no sink is marked
    running: it only clears [default_sink_running_]; the current sink's
    name, index, volume, mute flag and strings stay, nothing is notified
    and nothing is requested. *)
Theorem non_default_sink_never_adopted (i : pa_sink_info) (b : AudioBackend) :
  ~ In (si_description i) (ignored_sinks_ b) ->
  si_name i <> default_sink_name b ->
  let r := sinkInfoCb (Some i) b in
  fst r = set_default_sink_running_ false b
  /\ current_sink_name_ (fst r) = current_sink_name_ b
  /\ current_sink_running_ (fst r) = current_sink_running_ b
  /\ desc_ (fst r) = desc_ b /\ volume_ (fst r) = volume_ b
  /\ pa_volume_ (fst r) = pa_volume_ b /\ sink_idx_ (fst r) = sink_idx_ b
  /\ notifications (snd r) = [] /\ requests (snd r) = [].
Proof.
  intros Hn Hne r.
  destruct (sinkInfoCb_non_default i b Hn Hne) as [Hfst Hnot].
  assert (Hreq : requests (snd r) = []).
  { unfold r, sinkInfoCb. rewrite (ignored_loop_miss _ _ _ Hn).
    assert (Hd : String.eqb (default_sink_name b) (si_name i) = false)
      by (apply String.eqb_neq; congruence).
    assert (Hd' : String.eqb (si_name i) (default_sink_name b) = false)
      by (apply String.eqb_neq; congruence).
    destruct (negb (vector_empty (ignored_sinks_ b))); cbv zeta;
      rewrite Hd; simpl; rewrite Hd'; reflexivity. }
  unfold r. rewrite Hfst. repeat split; assumption.
Qed.

(** A running sink "Y" arrives while the default "X" has not been seen
    and no sink is marked running. *)
Lemma non_default_sink_never_adopted_witness :
  let b := Examples.announced in
  let i := Examples.sink "Y" "Headphones" PA_SINK_RUNNING
             (Examples.stereo 65536 65536) in
  current_sink_running_ b = false
  /\ current_sink_name_ (fst (sinkInfoCb (Some i) b)) = "X"
  /\ notifications (snd (sinkInfoCb (Some i) b)) = [].
Proof.
  intros b i.
  assert (Hn : ~ In (si_description i) (ignored_sinks_ b)) by (simpl; tauto).
  assert (Hne : si_name i <> default_sink_name b) by discriminate.
  destruct (non_default_sink_never_adopted i b Hn Hne)
    as (_ & Hcur & _ & _ & _ & _ & _ & Hnot & _).
  split; [reflexivity|]. split; [rewrite Hcur; reflexivity | exact Hnot].
Defined.

(** X2.  After a server info response, and until the next one, the
    current sink's name is the default sink name that response reported,
    whatever callbacks are delivered and whatever entry points are
    called in between: no sink delivery ever moves the current sink away
    from the server's default. *)
Theorem current_sink_follows_server_info
  (i : pa_server_info) (es : list event) (b : AudioBackend) :
  Forall (fun e => match e with ev_serverInfo _ => False | _ => True end) es ->
  let b' := fst (run (ev_serverInfo i :: es) b) in
  current_sink_name_ b' = sv_default_sink_name i
  /\ default_sink_name b' = sv_default_sink_name i.
Proof.
  intros Hall. cbv zeta. rewrite run_cons. simpl fst.
  apply (run_preserves
           (fun b => current_sink_name_ b = sv_default_sink_name i
                     /\ default_sink_name b = sv_default_sink_name i)
           (fun e => match e with ev_serverInfo _ => False | _ => True end));
    [|exact Hall|split; reflexivity].
  intros e b0 He [Hc Hd].
  destruct e as [type idx|success|d|d|d|v lo hi|ct st mx| |m| |m|c];
    try contradiction;
    try (match goal with
         | |- context [step ?ev b0] =>
             destruct (step_frame ev b0 I)
               as (_ & _ & _ & _ & _ & _ & _ & Hc' & Hd' & _)
         end;
         cbv zeta in Hc', Hd'; rewrite Hc', Hd'; split; assumption).
  change (step (ev_sinkInfo d) b0) with (sinkInfoCb d b0).
  rewrite sinkInfoCb_default_sink_name.
  rewrite sinkInfoCb_current_name by congruence. split; assumption.
Qed.

(** The default is "X"; a running "Y", a suspended "X" and a volume
    step later the current sink is still "X". *)
Lemma current_sink_follows_server_info_witness :
  let es := [ev_sinkInfo (Some (Examples.sink "Y" "Headphones" PA_SINK_RUNNING
                                  (Examples.stereo 65536 65536)));
             ev_sinkInfo (Some (Examples.sink "X" "Speakers" PA_SINK_SUSPENDED
                                  (Examples.stereo 32768 32768)));
             ev_changeVolume_ChangeType Increase (F64.of_Z 5) 100] in
  current_sink_name_
    (fst (run (ev_serverInfo {| sv_default_sink_name := "X";
                                sv_default_source_name := "mic" |} :: es)
            Examples.fresh)) = "X".
Proof.
  intros es.
  refine (proj1 (current_sink_follows_server_info
                   {| sv_default_sink_name := "X";
                      sv_default_source_name := "mic" |} es Examples.fresh _)).
  unfold es. repeat constructor.
Defined.

(** Delivery of the default sink's descriptor while the current sink is
    the default sink: the running flags are refreshed and the descriptor
    is copied. *)
Lemma sinkInfoCb_current_default (i : pa_sink_info) (b : AudioBackend) :
  ~ In (si_description i) (ignored_sinks_ b) ->
  si_name i = default_sink_name b ->
  current_sink_name_ b = default_sink_name b ->
  let act := sink_active (si_state i) in
  let b2 := set_current_sink_running_ act (set_default_sink_running_ act b) in
  exists line,
    sinkInfoCb (Some i) b
    = (fst (copy_sink i b2), spdlog lvl_trace line :: snd (copy_sink i b2)).
Proof.
  intros Hn Hname Hcur. cbv zeta. unfold sinkInfoCb.
  rewrite (ignored_loop_miss _ _ _ Hn).
  assert (Hd : String.eqb (default_sink_name b) (si_name i) = true)
    by (rewrite Hname; apply String.eqb_refl).
  assert (Hd' : String.eqb (si_name i) (default_sink_name b) = true)
    by (rewrite Hname; apply String.eqb_refl).
  assert (Hc : String.eqb (current_sink_name_ b) (si_name i) = true)
    by (rewrite Hcur, Hname; apply String.eqb_refl).
  eexists.
  destruct (negb (vector_empty (ignored_sinks_ b))); cbv zeta;
    rewrite Hd; simpl default_sink_name; rewrite Hd'; simpl negb; cbv iota;
    simpl andb; rewrite Hc; simpl current_sink_running_;
    destruct (sink_active (si_state i)); simpl; rewrite Hc;
    match goal with
    | |- context [copy_sink i ?x] => destruct (copy_sink i x)
    end; simpl; rewrite ?Hc; reflexivity.
Qed.

(** X3.  While the current sink is the default sink, every delivery of
    the default sink's descriptor (not ignored, valid volume) refreshes
    the whole snapshot, also when the sink is suspended: both running
    flags become "running or idle", the stored structure, index,
    percentage, mute flag, description, monitor and form factor are the
    descriptor's, the port name is "Unknown" for a null active port, and
    exactly one notification fires. *)
Theorem default_sink_refreshes_snapshot (i : pa_sink_info) (b : AudioBackend) :
  ~ In (si_description i) (ignored_sinks_ b) ->
  si_name i = default_sink_name b ->
  current_sink_name_ b = default_sink_name b ->
  pa_cvolume_valid (si_volume i) = true ->
  let r := sinkInfoCb (Some i) b in
  current_sink_running_ (fst r) = sink_active (si_state i)
  /\ default_sink_running_ (fst r) = sink_active (si_state i)
  /\ pa_volume_ (fst r) = si_volume i
  /\ sink_idx_ (fst r) = si_index i
  /\ volume_ (fst r) = percent_of_native (pa_cvolume_avg (si_volume i))
  /\ muted_ (fst r) = negb (si_mute i =? 0)
  /\ desc_ (fst r) = si_description i
  /\ monitor_ (fst r) = si_monitor_source_name i
  /\ port_name_ (fst r)
     = match si_active_port i with Some p => p | None => "Unknown" end
  /\ form_factor_ (fst r)
     = match si_form_factor i with Some ff => ff | None => "" end
  /\ notifications (snd r) = [on_updated_cb_]
  /\ requests (snd r) = [].
Proof.
  intros Hn Hname Hcur Hvalid r.
  destruct (sinkInfoCb_current_default i b Hn Hname Hcur) as [line Heq].
  unfold r. rewrite Heq. unfold copy_sink. rewrite Hvalid. simpl.
  repeat split.
Qed.

Lemma default_sink_refreshes_snapshot_witness :
  let i := Examples.sink "X" "Speakers" PA_SINK_SUSPENDED
             (Examples.stereo 32768 32768) in
  let r := sinkInfoCb (Some i) Examples.announced in
  current_sink_running_ (fst r) = false /\ volume_ (fst r) = 50
  /\ desc_ (fst r) = "Speakers" /\ notifications (snd r) = [on_updated_cb_].
Proof.
  intros i r.
  assert (Hn : ~ In (si_description i) (ignored_sinks_ Examples.announced))
    by (simpl; tauto).
  destruct (default_sink_refreshes_snapshot i Examples.announced Hn
              eq_refl eq_refl eq_refl)
    as (Hrun & _ & _ & _ & Hvol & _ & Hdesc & _ & _ & _ & Hnot & _).
  unfold r. rewrite Hrun, Hvol, Hdesc, Hnot. repeat split.
Defined.

(** X4.  The same delivery with an invalid channel-volume structure:
    the stored structure is reset to the initial one and the percentage
    to 0, an error is logged, the stored sink index is NOT updated, the
    mute flag and the strings are still copied and the notification
    still fires; afterwards the stored structure is not usable, so the
    next volume call takes its two-channel default. *)
Theorem invalid_volume_resets_snapshot (i : pa_sink_info) (b : AudioBackend) :
  ~ In (si_description i) (ignored_sinks_ b) ->
  si_name i = default_sink_name b ->
  current_sink_name_ b = default_sink_name b ->
  pa_cvolume_valid (si_volume i) = false ->
  let r := sinkInfoCb (Some i) b in
  pa_volume_ (fst r) = pa_cvolume_init
  /\ volume_ (fst r) = 0
  /\ sink_idx_ (fst r) = sink_idx_ b
  /\ muted_ (fst r) = negb (si_mute i =? 0)
  /\ desc_ (fst r) = si_description i
  /\ In (spdlog lvl_error "Invalid volume structure received from PulseAudio")
       (snd r)
  /\ notifications (snd r) = [on_updated_cb_]
  /\ stored_volume_usable (fst r) = false.
Proof.
  intros Hn Hname Hcur Hvalid r.
  destruct (sinkInfoCb_current_default i b Hn Hname Hcur) as [line Heq].
  unfold r. rewrite Heq. unfold copy_sink. rewrite Hvalid. simpl.
  repeat split. right. left. reflexivity.
Qed.

(** A structure with no channel arrives for the default sink, which
    showed 50 percent at index 3. *)
Lemma invalid_volume_resets_snapshot_witness :
  let b := set_sink_idx_ 9
             (fst (sinkInfoCb (Some (Examples.sink "X" "Speakers" PA_SINK_IDLE
                                       (Examples.stereo 32768 32768)))
                     Examples.announced)) in
  let i := Examples.sink "X" "Speakers" PA_SINK_IDLE pa_cvolume_init in
  volume_ b = 50 /\ sink_idx_ b = 9 /\ si_index i = 3
  /\ volume_ (fst (sinkInfoCb (Some i) b)) = 0
  /\ sink_idx_ (fst (sinkInfoCb (Some i) b)) = 9.
Proof.
  intros b i.
  assert (Hn : ~ In (si_description i) (ignored_sinks_ b)) by (simpl; tauto).
  destruct (invalid_volume_resets_snapshot i b Hn eq_refl eq_refl eq_refl)
    as (_ & Hvol & Hidx & _).
  split; [vm_compute; reflexivity|]. split; [reflexivity|].
  split; [reflexivity|]. split; [exact Hvol | rewrite Hidx; reflexivity].
Defined.

(** What a sink delivery can do to the stored structure and percentage. *)
Lemma sinkInfoCb_volume_cases (i : option pa_sink_info) (b : AudioBackend) :
  let b' := fst (sinkInfoCb i b) in
  (pa_volume_ b' = pa_volume_ b /\ volume_ b' = volume_ b)
  \/ (pa_cvolume_valid (pa_volume_ b') = true
      /\ volume_ b' = percent_of_native (pa_cvolume_avg (pa_volume_ b')))
  \/ (pa_volume_ b' = pa_cvolume_init /\ volume_ b' = 0).
Proof.
  cbv zeta. destruct i as [i|]; [|left; split; reflexivity].
  destruct (in_dec String.string_dec (si_description i) (ignored_sinks_ b))
    as [Hin|Hn].
  - left. rewrite (sinkInfoCb_ignored i b Hin). simpl.
    destruct (String.eqb _ _); split; reflexivity.
  - unfold sinkInfoCb. rewrite (ignored_loop_miss _ _ _ Hn).
    destruct (negb (vector_empty (ignored_sinks_ b))); cbv zeta;
      repeat match goal with
             | |- context [if ?c then _ else _] => destruct c eqn:?
             | |- context [copy_sink ?x ?y] => unfold copy_sink
             end; simpl; auto.
Qed.

Lemma percent_of_init : percent_of_native (pa_cvolume_avg pa_cvolume_init) = 0.
Proof. vm_compute. reflexivity. Qed.

(** X5.  From construction on, through any sequence of callbacks and
    calls, the percentage [volume_] is the rounded percentage of the
    average of the stored structure [pa_volume_], and the stored
    structure is either valid or still (or again) the initial one; the
    volume calls therefore fall back to two channels exactly when it is
    the initial one. *)
Theorem volume_snapshot_invariant (es : list event) (b : AudioBackend) :
  constructed b ->
  let b' := fst (run es b) in
  volume_ b' = percent_of_native (pa_cvolume_avg (pa_volume_ b'))
  /\ (pa_volume_ b' = pa_cvolume_init \/ pa_cvolume_valid (pa_volume_ b') = true)
  /\ (stored_volume_usable b' = false <-> pa_volume_ b' = pa_cvolume_init).
Proof.
  intros [Hv Hp]. cbv zeta.
  assert (Hinv : volume_ (fst (run es b))
                 = percent_of_native (pa_cvolume_avg (pa_volume_ (fst (run es b))))
                 /\ (pa_volume_ (fst (run es b)) = pa_cvolume_init
                     \/ pa_cvolume_valid (pa_volume_ (fst (run es b))) = true)).
  { apply (run_preserves
             (fun b => volume_ b = percent_of_native (pa_cvolume_avg (pa_volume_ b))
                       /\ (pa_volume_ b = pa_cvolume_init
                           \/ pa_cvolume_valid (pa_volume_ b) = true))
             (fun _ => True)).
    - intros e b0 _ [Hvol Hcase].
      destruct e as [type idx|success|d|d|d|v lo hi|ct st mx| |m| |m|c];
        try (match goal with
             | |- context [step ?ev b0] =>
                 destruct (step_frame ev b0 I) as (Hpv & _ & Hvv & _)
             end;
             cbv zeta in Hpv, Hvv; rewrite Hpv, Hvv; split; assumption).
      + change (step (ev_sinkInfo d) b0) with (sinkInfoCb d b0).
        destruct (sinkInfoCb_volume_cases d b0)
          as [[Hpv Hvv] | [[Hval Hvv] | [Hpv Hvv]]].
        * rewrite Hpv, Hvv. split; assumption.
        * split; [exact Hvv | right; exact Hval].
        * rewrite Hpv, Hvv. split; [symmetry; apply percent_of_init | now left].
      + split; assumption.
    - apply Forall_forall. intros; exact I.
    - rewrite Hv, Hp. split; [symmetry; apply percent_of_init | now left]. }
  destruct Hinv as [Hvol Hcase]. split; [exact Hvol|]. split; [exact Hcase|].
  unfold stored_volume_usable. split.
  - intros Hun. destruct Hcase as [Hi|Hval]; [exact Hi|].
    rewrite Hval in Hun. simpl in Hun.
    unfold pa_cvolume_valid in Hval. apply andb_true_iff in Hval as [Hch _].
    rewrite Hch in Hun. discriminate.
  - intros Hi. rewrite Hi. reflexivity.
Qed.

Lemma volume_snapshot_invariant_witness :
  let es := [ev_serverInfo {| sv_default_sink_name := "X";
                              sv_default_source_name := "mic" |};
             ev_sinkInfo (Some (Examples.sink "X" "Speakers" PA_SINK_IDLE
                                  (Examples.stereo 30000 40000)));
             ev_toggleSinkMute] in
  constructed Examples.fresh
  /\ volume_ (fst (run es Examples.fresh))
     = percent_of_native
         (pa_cvolume_avg (pa_volume_ (fst (run es Examples.fresh)))).
Proof.
  intros es.
  assert (Hc : constructed Examples.fresh) by (split; reflexivity).
  split; [exact Hc|].
  exact (proj1 (volume_snapshot_invariant es Examples.fresh Hc)).
Defined.

(** ** Mutation entry points *)

(** X7.  Every mutation entry point, in every state and for every
    argument, keeps the lock protocol: lock and unlock alternate, the
    request is made only while the main-loop lock is held, and the lock
    has been released when the call returns.  A call that submits
    nothing never takes the lock. *)
Theorem mutations_keep_lock_protocol (e : event) (b : AudioBackend) :
  is_mutation e = true ->
  lock_discipline false (snd (step e b)) = true
  /\ (requests (snd (step e b)) = [] ->
      ~ In pa_threaded_mainloop_lock (snd (step e b))).
Proof.
  intros He.
  destruct e as [type idx|success|d|d|d|v lo hi|ct st mx| |m| |m|c];
    try discriminate He; simpl step.
  - unfold changeVolume. destruct (negb (context_ready b)).
    + split; [reflexivity|]. intros _ [H|[]]. discriminate H.
    + destruct (stored_volume_usable b); split; try reflexivity;
        intros H; discriminate H.
  - unfold changeVolume_ChangeType.
    repeat match goal with |- context [if ?c then _ else _] => destruct c end;
      split; try reflexivity;
      intros H; try discriminate H; simpl; intuition discriminate.
  - split; [reflexivity | intros H; discriminate H].
  - split; [reflexivity | intros H; discriminate H].
  - split; [reflexivity | intros H; discriminate H].
  - split; [reflexivity | intros H; discriminate H].
Qed.

Lemma mutations_keep_lock_protocol_witness :
  let b := Examples.announced in
  lock_discipline false
    (snd (changeVolume_ChangeType Decrease (F64.of_Z 5) 100 b)) = true
  /\ lock_discipline false (snd (toggleSourceMute b)) = true.
Proof.
  intros b. split.
  - exact (proj1 (mutations_keep_lock_protocol
                    (ev_changeVolume_ChangeType Decrease (F64.of_Z 5) 100)
                    b eq_refl)).
  - exact (proj1 (mutations_keep_lock_protocol ev_toggleSourceMute b eq_refl)).
Defined.

Lemma notifications_app (t1 t2 : list effect) :
  notifications (t1 ++ t2) = (notifications t1 ++ notifications t2)%list.
Proof. unfold notifications. apply List.filter_app. Qed.

(** One event notifies at most once, and only when it is the delivery
    of a sink or source descriptor. *)
Lemma step_notifications (e : event) (b : AudioBackend) :
  (length (notifications (snd (step e b)))
   <= match e with
      | ev_sinkInfo (Some _) | ev_sourceInfo (Some _) => 1
      | _ => 0
      end)%nat.
Proof.
  destruct e as [type idx|success|d|d|d|v lo hi|ct st mx| |m| |m|c];
    simpl step.
  - unfold subscribeCb.
    repeat match goal with |- context [if ?c then _ else _] => destruct c end;
      simpl; lia.
  - unfold volumeModifyCb.
    repeat match goal with |- context [if ?c then _ else _] => destruct c end;
      simpl; lia.
  - destruct d as [d|]; [|simpl; lia].
    destruct (in_dec String.string_dec (si_description d) (ignored_sinks_ b))
      as [Hin|Hn].
    + rewrite (sinkInfoCb_ignored d b Hin). simpl. lia.
    + unfold sinkInfoCb. rewrite (ignored_loop_miss _ _ _ Hn).
      destruct (negb (vector_empty (ignored_sinks_ b))); cbv zeta;
        repeat match goal with
               | |- context [if ?c then _ else _] => destruct c
               | |- context [copy_sink ?x ?y] => unfold copy_sink
               end; simpl; lia.
  - unfold sourceInfoCb. destruct d as [d|]; [|simpl; lia].
    destruct (String.eqb _ _); simpl; lia.
  - simpl. lia.
  - unfold changeVolume. destruct (negb (context_ready b)); [simpl; lia|].
    destruct (stored_volume_usable b); simpl; lia.
  - unfold changeVolume_ChangeType.
    repeat match goal with |- context [if ?c then _ else _] => destruct c end;
      simpl; lia.
  - simpl. lia.
  - simpl. lia.
  - simpl. lia.
  - simpl. lia.
  - simpl. lia.
Qed.

(** X8.  The update notification comes from descriptor deliveries only:
    over any sequence of callbacks and calls, the number of
    notifications is at most the number of non-null sink and source
    descriptors delivered.  No mutation entry point, subscription event,
    server info or volume completion ever notifies. *)
Theorem notifications_only_from_deliveries (es : list event) (b : AudioBackend) :
  (length (notifications (snd (run es b)))
   <= length (List.filter
                (fun e => match e with
                          | ev_sinkInfo (Some _) | ev_sourceInfo (Some _) => true
                          | _ => false
                          end) es))%nat.
Proof.
  revert b. induction es as [|e es IH]; intros b; [simpl; lia|].
  rewrite run_cons. simpl snd. rewrite notifications_app, length_app.
  pose proof (step_notifications e b) as He.
  specialize (IH (fst (step e b))).
  simpl List.filter.
  destruct e as [type idx|success|[d|]|[d|]|d|v lo hi|ct st mx| |m| |m|c];
    simpl length in *; lia.
Qed.

(** X9.  The flip form of the sink toggle is an involution on the
    backend, its two requests carry opposite values, and a following
    explicit toggle overrides it. *)
Theorem toggleSinkMute_twice (b : AudioBackend) :
  fst (toggleSinkMute (fst (toggleSinkMute b))) = b
  /\ requests (snd (toggleSinkMute b))
     = [pa_context_set_sink_mute_by_index (sink_idx_ b)
          (int_of_bool (negb (muted_ b))) cb_nullptr]
  /\ requests (snd (toggleSinkMute (fst (toggleSinkMute b))))
     = [pa_context_set_sink_mute_by_index (sink_idx_ b)
          (int_of_bool (muted_ b)) cb_nullptr]
  /\ (forall mute,
         fst (toggleSinkMute_bool mute (fst (toggleSinkMute b)))
         = fst (toggleSinkMute_bool mute b)).
Proof.
  destruct b. unfold toggleSinkMute, toggleSinkMute_bool, set_muted_. simpl.
  rewrite negb_involutive. repeat split.
Qed.

(** ** The source callback *)

(** X10.  The source callback adopts a descriptor exactly when it
    carries the default source's name.  Any other descriptor, and a null
    one, leaves the backend unchanged without notification.  An adopted
    one sets the five source members and notifies once; nothing on the
    sink side changes.  An invalid channel-volume structure shows as 0
    percent, and no diagnostic is logged for it. *)
Theorem sourceInfoCb_adopts_default_only (i : pa_source_info) (b : AudioBackend) :
  sourceInfoCb None b = (b, [])
  /\ (so_name i <> default_source_name_ b -> sourceInfoCb (Some i) b = (b, []))
  /\ (so_name i = default_source_name_ b ->
      let r := sourceInfoCb (Some i) b in
      snd r = [on_updated_cb_]
      /\ source_idx_ (fst r) = so_index i
      /\ source_volume_ (fst r) = percent_of_native (pa_cvolume_avg (so_volume i))
      /\ source_muted_ (fst r) = negb (so_mute i =? 0)
      /\ source_desc_ (fst r) = so_description i
      /\ source_port_name_ (fst r)
         = match so_active_port i with Some p => p | None => "Unknown" end
      /\ fst r = set_source (source_idx_ (fst r)) (source_volume_ (fst r))
                   (source_muted_ (fst r)) (source_port_name_ (fst r))
                   (source_desc_ (fst r)) b
      /\ (pa_cvolume_valid (so_volume i) = false -> source_volume_ (fst r) = 0)).
Proof.
  split; [reflexivity|]. unfold sourceInfoCb. split.
  - intros Hne.
    assert (H : String.eqb (default_source_name_ b) (so_name i) = false)
      by (apply String.eqb_neq; congruence).
    rewrite H. reflexivity.
  - intros He.
    assert (H : String.eqb (default_source_name_ b) (so_name i) = true)
      by (rewrite He; apply String.eqb_refl).
    rewrite H. cbv zeta. simpl. repeat split.
    intros Hinv. unfold pa_cvolume_avg. rewrite Hinv. vm_compute. reflexivity.
Qed.

Lemma sourceInfoCb_adopts_default_only_witness :
  let mic := {| so_name := "mic"; so_index := 4; so_description := "Microphone";
                so_volume := pa_cvolume_init; so_mute := 1;
                so_active_port := None |} in
  let other := {| so_name := "line-in"; so_index := 5;
                  so_description := "Line in";
                  so_volume := Examples.stereo 65536 65536; so_mute := 0;
                  so_active_port := None |} in
  sourceInfoCb (Some other) Examples.announced = (Examples.announced, [])
  /\ source_volume_ (fst (sourceInfoCb (Some mic) Examples.announced)) = 0
  /\ source_port_name_ (fst (sourceInfoCb (Some mic) Examples.announced))
     = "Unknown".
Proof.
  intros mic other.
  destruct (sourceInfoCb_adopts_default_only other Examples.announced)
    as (_ & Hother & _).
  destruct (sourceInfoCb_adopts_default_only mic Examples.announced)
    as (_ & _ & Hmic).
  split; [apply Hother; discriminate|].
  destruct (Hmic eq_refl) as (_ & _ & _ & _ & _ & Hport & _ & Hinv).
  split; [apply Hinv; reflexivity | exact Hport].
Defined.

(** ** The ignore list from the configuration *)

Lemma fold_push_if_string (elems : list Json_Value) (b : AudioBackend) :
  fold_left push_if_string elems b
  = set_ignored_sinks_ (ignored_sinks_ b ++ json_strings elems)%list b.
Proof.
  revert b. induction elems as [|x elems IH]; intros b.
  - simpl. rewrite app_nil_r. destruct b; reflexivity.
  - simpl fold_left. rewrite IH.
    destruct x; simpl; try reflexivity.
    rewrite <- app_assoc. reflexivity.
Qed.

Lemma json_strings_In (s : string) (elems : list Json_Value) :
  In s (json_strings elems) <-> In (Json_string s) elems.
Proof.
  induction elems as [|x elems IH]; simpl; [tauto|].
  destruct x; simpl; rewrite IH;
    split; intros H;
    try (destruct H as [H|H]; [discriminate H | exact H]);
    try (right; exact H).
  - destruct H as [H|H]; [left; congruence | right; exact H].
  - destruct H as [H|H]; [left; congruence | right; exact H].
Qed.

(** X11.  [setIgnoredSinks] appends to the ignore list the string
    elements of a JSON array, in their order, skipping elements of any
    other type; it never removes an entry, and a configuration value
    that is not an array (null, a single string, an object) changes
    nothing.  No other member is touched. *)
Theorem setIgnoredSinks_appends_strings (config : Json_Value) (b : AudioBackend) :
  let added := match config with
               | Json_array elems => json_strings elems
               | _ => []
               end in
  setIgnoredSinks config b
  = set_ignored_sinks_ (ignored_sinks_ b ++ added)%list b
  /\ (forall s, In s (ignored_sinks_ b) ->
                In s (ignored_sinks_ (setIgnoredSinks config b)))
  /\ (forall s, In s (ignored_sinks_ (setIgnoredSinks config b)) <->
                In s (ignored_sinks_ b)
                \/ exists elems, config = Json_array elems
                                 /\ In (Json_string s) elems).
Proof.
  cbv zeta.
  assert (Heq : setIgnoredSinks config b
                = set_ignored_sinks_
                    (ignored_sinks_ b
                     ++ match config with
                        | Json_array elems => json_strings elems
                        | _ => []
                        end)%list b).
  { destruct config; simpl;
      try (rewrite app_nil_r; destruct b; reflexivity).
    apply fold_push_if_string. }
  split; [exact Heq|]. rewrite Heq. simpl ignored_sinks_. split.
  - intros s Hs. apply in_or_app. now left.
  - intros s. rewrite in_app_iff. split.
    + intros [H|H]; [now left|]. right.
      destruct config; simpl in H; try contradiction.
      eexists. split; [reflexivity|]. now apply json_strings_In.
    + intros [H|(elems & -> & H)]; [now left|]. right.
      now apply json_strings_In.
Qed.

(** X12.  A sink whose description is a string element of the
    configured array is never adopted afterwards: its delivery leaves
    the current sink's name and the shown description as they were and
    fires no notification, whatever else the array contains and whatever
    the sink's state. *)
Theorem configured_sink_never_adopted
  (elems : list Json_Value) (i : pa_sink_info) (b : AudioBackend) :
  In (Json_string (si_description i)) elems ->
  let b0 := setIgnoredSinks (Json_array elems) b in
  let r := sinkInfoCb (Some i) b0 in
  current_sink_name_ (fst r) = current_sink_name_ b
  /\ desc_ (fst r) = desc_ b
  /\ volume_ (fst r) = volume_ b
  /\ notifications (snd r) = []
  /\ (si_name i = current_sink_name_ b -> current_sink_running_ (fst r) = false).
Proof.
  intros Hin b0 r.
  assert (Hb0 : b0 = set_ignored_sinks_
                       (ignored_sinks_ b ++ json_strings elems)%list b)
    by apply fold_push_if_string.
  assert (Hig : In (si_description i) (ignored_sinks_ b0)).
  { rewrite Hb0. simpl. apply in_or_app. right. now apply json_strings_In. }
  unfold r. rewrite (sinkInfoCb_ignored i b0 Hig). simpl fst. simpl snd.
  assert (Hcur : current_sink_name_ b0 = current_sink_name_ b)
    by (rewrite Hb0; reflexivity).
  rewrite Hcur.
  destruct (String.eqb_spec (si_name i) (current_sink_name_ b)) as [He|Hne];
    rewrite Hb0; simpl; repeat split; try reflexivity.
  intros He. contradiction.
Qed.

Lemma configured_sink_never_adopted_witness :
  let elems := [Json_int 3; Json_string "Monitor of X"; Json_null] in
  let i := Examples.sink "X" "Monitor of X" PA_SINK_RUNNING
             (Examples.stereo 65536 65536) in
  In (Json_string (si_description i)) elems
  /\ notifications
       (snd (sinkInfoCb (Some i)
               (setIgnoredSinks (Json_array elems) Examples.announced))) = [].
Proof.
  intros elems i.
  assert (Hin : In (Json_string (si_description i)) elems)
    by (simpl; auto).
  split; [exact Hin|].
  destruct (configured_sink_never_adopted elems i Examples.announced Hin)
    as (_ & _ & _ & Hnot & _).
  exact Hnot.
Defined.

(** ** The ignore list over the whole life of a backend *)

(** What one callback or call can do to the shown description: the
    ignore list stays, and the description stays or becomes one that is
    not on the list. *)
Lemma step_description (e : event) (b : AudioBackend) :
  ignored_sinks_ (fst (step e b)) = ignored_sinks_ b
  /\ (desc_ (fst (step e b)) = desc_ b
      \/ ~ In (desc_ (fst (step e b))) (ignored_sinks_ b)).
Proof.
  destruct e as [type idx|success|d|d|d|v lo hi|ct st mx| |m| |m|c];
    try (match goal with
         | |- context [step ?ev b] =>
             destruct (step_frame ev b I)
               as (_ & _ & _ & _ & _ & Hdd & _ & _ & _ & _ & _ & Hii)
         end;
         cbv zeta in Hdd, Hii; rewrite Hdd, Hii; split; [reflexivity | now left]).
  - change (step (ev_sinkInfo d) b) with (sinkInfoCb d b).
    rewrite sinkInfoCb_ignored_sinks. split; [reflexivity|].
    destruct d as [d|]; [|now left].
    destruct (sinkInfoCb_desc d b) as [-> | [-> Hn]]; [now left | now right].
  - split; [reflexivity | now left].
Qed.

Lemma setIgnoredSinks_keeps (config : Json_Value) (b : AudioBackend) :
  desc_ (setIgnoredSinks config b) = desc_ b
  /\ (forall s, In s (ignored_sinks_ b) ->
                In s (ignored_sinks_ (setIgnoredSinks config b))).
Proof.
  destruct config; simpl; try (split; [reflexivity | auto]).
  rewrite fold_push_if_string. simpl. split; [reflexivity|].
  intros s Hs. apply in_or_app. now left.
Qed.

Lemma lifetime_run_cons (a : lifetime_event) (es : list lifetime_event)
  (b : AudioBackend) :
  fst (lifetime_run (a :: es) b)
  = fst (lifetime_run es (fst (lifetime_step a b))).
Proof.
  simpl. destruct (lifetime_step a b) as [b1 t1]. simpl.
  destruct (lifetime_run es b1) as [b2 t2]. reflexivity.
Qed.

(** X6.  An entry of the ignore list stays excluded for good.  Through
    any sequence of callbacks, entry-point calls and calls of
    [setIgnoredSinks], in any order, the ignore list only grows, and the
    description shown for the current sink never becomes one that was on
    the list at the start, provided it was not one then.  (A description
    that is added to the list only after its sink was copied is not
    removed from the snapshot by that.) *)
Theorem ignored_entries_stay_excluded
  (es : list lifetime_event) (b : AudioBackend) :
  ~ In (desc_ b) (ignored_sinks_ b) ->
  let b' := fst (lifetime_run es b) in
  (forall s, In s (ignored_sinks_ b) -> In s (ignored_sinks_ b'))
  /\ ~ In (desc_ b') (ignored_sinks_ b).
Proof.
  intros Hb. cbv zeta.
  assert (Hgen : forall b0,
             (forall s, In s (ignored_sinks_ b) -> In s (ignored_sinks_ b0)) ->
             ~ In (desc_ b0) (ignored_sinks_ b) ->
             (forall s, In s (ignored_sinks_ b) ->
                        In s (ignored_sinks_ (fst (lifetime_run es b0))))
             /\ ~ In (desc_ (fst (lifetime_run es b0))) (ignored_sinks_ b)).
  { induction es as [|a es IH]; intros b0 Hsub Hd; [split; assumption|].
    rewrite lifetime_run_cons. destruct a as [e|config]; simpl lifetime_step;
      cbn [fst]; apply IH.
    - destruct (step_description e b0) as [Hig _]. rewrite Hig. exact Hsub.
    - destruct (step_description e b0) as [_ [Hsame | Hnew]].
      + rewrite Hsame. exact Hd.
      + intros Hin. apply Hnew. apply Hsub. exact Hin.
    - intros s Hs. apply (proj2 (setIgnoredSinks_keeps config b0)).
      apply Hsub. exact Hs.
    - rewrite (proj1 (setIgnoredSinks_keeps config b0)). exact Hd. }
  apply Hgen; [auto | exact Hb].
Qed.

(** "Monitor of X" is configured; the default sink arrives under that
    description, then as "Speakers", and only then "Speakers" is added
    to the list: "Monitor of X" is never shown. *)
Lemma ignored_entries_stay_excluded_witness :
  let b := setIgnoredSinks (Json_array [Json_string "Monitor of X"])
             Examples.announced in
  let es := [le_event (ev_sinkInfo
                         (Some (Examples.sink "X" "Monitor of X" PA_SINK_RUNNING
                                  (Examples.stereo 65536 65536))));
             le_event (ev_sinkInfo
                         (Some (Examples.sink "X" "Speakers" PA_SINK_RUNNING
                                  (Examples.stereo 65536 65536))));
             le_setIgnoredSinks (Json_array [Json_string "Speakers"])] in
  ~ In (desc_ b) (ignored_sinks_ b)
  /\ In "Monitor of X" (ignored_sinks_ (fst (lifetime_run es b)))
  /\ ~ In (desc_ (fst (lifetime_run es b))) (ignored_sinks_ b).
Proof.
  intros b es.
  assert (Hb : ~ In (desc_ b) (ignored_sinks_ b)).
  { simpl. intros [H|[]]. discriminate H. }
  destruct (ignored_entries_stay_excluded es b Hb) as [Hsub Hd].
  split; [exact Hb|]. split; [apply Hsub; simpl; auto | exact Hd].
Defined.

(** ** [isBluetooth] *)

Lemma starts_with_spec (pat s : string) :
  starts_with pat s = true <-> exists post, s = pat ++ post.
Proof.
  revert s. induction pat as [|a pat IH]; intros s; simpl.
  - split; [intros _; exists s; reflexivity | reflexivity].
  - destruct s as [|c s].
    + split; [discriminate | intros [post H]; discriminate H].
    + rewrite andb_true_iff, Ascii.eqb_eq, IH. split.
      * intros [-> [post ->]]. exists post. reflexivity.
      * intros [post H]. injection H as -> ->. split; [reflexivity|].
        exists post. reflexivity.
Qed.

(** [find] succeeds exactly when the pattern occurs somewhere. *)
Lemma find_from_spec (pat s : string) (pos : nat) :
  not_npos (find_from pat s pos) = true
  <-> exists pre post, s = pre ++ pat ++ post.
Proof.
  revert pos. induction s as [|c s IH]; intros pos; simpl find_from.
  - destruct (starts_with pat "") eqn:Hs.
    + split; [intros _|reflexivity].
      apply starts_with_spec in Hs as [post Hpost].
      exists "", post. exact Hpost.
    + split; [discriminate|]. intros (pre & post & H).
      destruct pre; [|discriminate H]. simpl in H.
      assert (Hs' : starts_with pat "" = true)
        by (apply starts_with_spec; exists post; exact H).
      congruence.
  - destruct (starts_with pat (String c s)) eqn:Hs.
    + split; [intros _|reflexivity].
      apply starts_with_spec in Hs as [post Hpost].
      exists "", post. exact Hpost.
    + rewrite IH. split.
      * intros (pre & post & ->). exists (String c pre), post. reflexivity.
      * intros (pre & post & H). destruct pre as [|a pre].
        -- simpl in H.
           assert (Hs' : starts_with pat (String c s) = true)
             by (apply starts_with_spec; exists post; exact H).
           congruence.
        -- injection H as -> ->. exists pre, post. reflexivity.
Qed.

(** The position [find] returns is one where the pattern stands. *)
Lemma find_from_position (pat s : string) (pos k : nat) :
  find_from pat s pos = Some k ->
  exists pre post, s = pre ++ pat ++ post /\ k = (pos + String.length pre)%nat.
Proof.
  revert pos. induction s as [|c s IH]; intros pos; simpl find_from.
  - destruct (starts_with pat "") eqn:Hs; [|discriminate].
    intros [= <-]. apply starts_with_spec in Hs as [post Hpost].
    exists "", post. split; [exact Hpost | simpl; lia].
  - destruct (starts_with pat (String c s)) eqn:Hs.
    + intros [= <-]. apply starts_with_spec in Hs as [post Hpost].
      exists "", post. split; [exact Hpost | simpl; lia].
    + intros H. apply IH in H as (pre & post & -> & ->).
      exists (String c pre), post. split; [reflexivity | simpl; lia].
Qed.

(** X13.  [isBluetooth] is true exactly when the monitor source name
    held for the current sink contains one of the three tokens
    "a2dp_sink", "a2dp-sink" or "bluez" somewhere, at any position and
    with the exact spelling. *)
Theorem isBluetooth_iff_token (b : AudioBackend) :
  isBluetooth b = true
  <-> exists tok pre post,
        In tok ["a2dp_sink"; "a2dp-sink"; "bluez"]
        /\ monitor_ b = pre ++ tok ++ post.
Proof.
  unfold isBluetooth, std_string_find.
  rewrite !orb_true_iff, !find_from_spec. split.
  - intros [[(pre & post & H) | (pre & post & H)] | (pre & post & H)].
    + exists "a2dp_sink", pre, post. simpl. auto.
    + exists "a2dp-sink", pre, post. simpl. auto.
    + exists "bluez", pre, post. simpl. auto.
  - intros (tok & pre & post & Hin & H). simpl in Hin.
    destruct Hin as [<- | [<- | [<- | []]]].
    + left. left. exists pre, post. exact H.
    + left. right. exists pre, post. exact H.
    + right. exists pre, post. exact H.
Qed.

(** X14.  Once the default sink's descriptor has been copied, the
    Bluetooth test speaks about that descriptor: it is true exactly when
    the descriptor's monitor source name contains one of the tokens. *)
Theorem bluetooth_follows_descriptor (i : pa_sink_info) (b : AudioBackend) :
  ~ In (si_description i) (ignored_sinks_ b) ->
  si_name i = default_sink_name b ->
  current_sink_name_ b = default_sink_name b ->
  isBluetooth (fst (sinkInfoCb (Some i) b)) = true
  <-> exists tok pre post,
        In tok ["a2dp_sink"; "a2dp-sink"; "bluez"]
        /\ si_monitor_source_name i = pre ++ tok ++ post.
Proof.
  intros Hn Hname Hcur.
  destruct (sinkInfoCb_current_default i b Hn Hname Hcur) as [line Heq].
  assert (Hmon : monitor_ (fst (sinkInfoCb (Some i) b))
                 = si_monitor_source_name i).
  { rewrite Heq. unfold copy_sink.
    destruct (pa_cvolume_valid (si_volume i)); reflexivity. }
  unfold isBluetooth, std_string_find. rewrite Hmon.
  rewrite !orb_true_iff, !find_from_spec. split.
  - intros [[(pre & post & H) | (pre & post & H)] | (pre & post & H)].
    + exists "a2dp_sink", pre, post. simpl. auto.
    + exists "a2dp-sink", pre, post. simpl. auto.
    + exists "bluez", pre, post. simpl. auto.
  - intros (tok & pre & post & Hin & H). simpl in Hin.
    destruct Hin as [<- | [<- | [<- | []]]].
    + left. left. exists pre, post. exact H.
    + left. right. exists pre, post. exact H.
    + right. exists pre, post. exact H.
Qed.

Lemma bluetooth_follows_descriptor_witness :
  let i := {| si_name := "X"; si_index := 7; si_description := "Headset";
              si_state := PA_SINK_RUNNING;
              si_volume := Examples.stereo 65536 65536; si_mute := 0;
              si_monitor_source_name := "bluez_sink.00_11.a2dp_sink.monitor";
              si_active_port := None; si_form_factor := Some "headset" |} in
  isBluetooth Examples.announced = false
  /\ isBluetooth (fst (sinkInfoCb (Some i) Examples.announced)) = true.
Proof.
  intros i. split; [reflexivity|].
  assert (Hn : ~ In (si_description i) (ignored_sinks_ Examples.announced))
    by (simpl; tauto).
  apply (bluetooth_follows_descriptor i Examples.announced Hn eq_refl eq_refl).
  exists "bluez", "", "_sink.00_11.a2dp_sink.monitor".
  split; [simpl; auto | reflexivity].
Defined.

(** ** Conversions in integer arithmetic *)

Lemma native_formula_all : range_all native_formula_ok 0 (Z.to_nat 65536) = true.
Proof. vm_compute. reflexivity. Qed.

Lemma native_formula (p : Z) :
  0 <= p < 65536 -> native_of_percent p = p * PA_VOLUME_NORM / 100.
Proof.
  intros Hp.
  pose proof (range_all_spec native_formula_ok (Z.to_nat 65536) 0 p
                native_formula_all) as H.
  rewrite Z2Nat.id in H by lia. specialize (H ltac:(lia)).
  now apply Z.eqb_eq in H.
Qed.

(** X15.  For every 16-bit percentage the native value computed in
    double precision is exactly the integer quotient of
    [percent * PA_VOLUME_NORM] by 100 (so 100 percent is
    [PA_VOLUME_NORM]); the conversion is therefore strictly increasing:
    a higher percentage always gives a higher native volume. *)
Theorem native_of_percent_is_integer_quotient (p q : Z) :
  0 <= p < 65536 -> 0 <= q < 65536 ->
  native_of_percent p = p * PA_VOLUME_NORM / 100
  /\ native_of_percent 100 = PA_VOLUME_NORM
  /\ (p < q -> native_of_percent p < native_of_percent q)
  /\ (native_of_percent p = native_of_percent q -> p = q).
Proof.
  intros Hp Hq.
  assert (Hmono : forall a c, 0 <= a -> a < c ->
                    a * PA_VOLUME_NORM / 100 < c * PA_VOLUME_NORM / 100).
  { intros a c Ha Hac. unfold PA_VOLUME_NORM.
    apply Z.lt_le_trans with ((a * 65536 + 100) / 100).
    - replace (a * 65536 + 100) with (a * 65536 + 1 * 100) by lia.
      rewrite Z.div_add by lia. lia.
    - apply Z.div_le_mono; lia. }
  rewrite (native_formula p Hp), (native_formula q Hq).
  split; [reflexivity|]. split; [reflexivity|]. split.
  - intros Hlt. apply Hmono; lia.
  - intros Heq.
    destruct (Z.lt_trichotomy p q) as [Hlt | [He | Hgt]]; [|exact He|].
    + pose proof (Hmono p q ltac:(lia) Hlt). lia.
    + pose proof (Hmono q p ltac:(lia) Hgt). lia.
Qed.

Lemma native_of_percent_is_integer_quotient_witness :
  native_of_percent 25 = 16384 /\ native_of_percent 25 < native_of_percent 26.
Proof.
  destruct (native_of_percent_is_integer_quotient 25 26 ltac:(lia) ltac:(lia))
    as (Hf & _ & Hlt & _).
  split; [rewrite Hf; reflexivity | apply Hlt; lia].
Defined.

(** ** More on the relative step *)

(** X16.  A decrease that is submitted (ready connection, usable
    structure, percentage above zero) never raises a channel: every
    channel of the submitted structure is between 0 and its old value,
    a channel not above the amount of the decrease becomes 0, the
    channel count is kept and the slots past it are left as they were. *)
Theorem decrease_never_raises
  (step : spec_float) (max_volume : Z) (b : AudioBackend) :
  context_ready b = true ->
  stored_volume_usable b = true ->
  0 < volume_ b ->
  Forall (fun x => 0 <= x) (used_values (pa_volume_ b)) ->
  exists v,
    snd (changeVolume_ChangeType Decrease step max_volume b) = submit_volume b v
    /\ channels v = channels (pa_volume_ b)
    /\ Forall2 (fun new old =>
                  0 <= new <= old
                  /\ (old <= decrease_change (volume_ b) step -> new = 0)
                  /\ (decrease_change (volume_ b) step < old ->
                      new = old - decrease_change (volume_ b) step))
         (used_values v) (used_values (pa_volume_ b))
    /\ (forall j, (Z.to_nat (channels v) <= j)%nat ->
                  values v !! j = values (pa_volume_ b) !! j).
Proof.
  intros Hready Hu Hpos Hnn.
  rewrite (step_decrease step max_volume b Hready Hu Hpos).
  eexists. split; [reflexivity|]. split; [reflexivity|]. split.
  - rewrite used_values_for_each_channel.
    apply Forall2_fmap_l, Forall_Forall2_diag.
    eapply Forall_impl; [exact Hnn|]. intros x Hx. unfold compose.
    cbv beta in *.
    assert (Hc : 0 <= decrease_change (volume_ b) step)
      by (unfold decrease_change, uint32_of_float;
          apply to_unsigned_range; lia).
    destruct (Z.ltb_spec (decrease_change (volume_ b) step) x); lia.
  - intros j Hj. apply unused_values_for_each_channel. exact Hj.
Qed.

(** At 5 percent on channels 3277 and 6000, a decrease by 10 takes the
    whole 5 percent (3277): the left channel reaches 0. *)
Lemma decrease_never_raises_witness :
  let b := set_volume_ 5 (set_pa_volume_ (Examples.stereo 3277 6000)
                            Examples.announced) in
  exists v,
    snd (changeVolume_ChangeType Decrease (F64.of_Z 10) 100 b)
    = submit_volume b v
    /\ Forall2 (fun new old => 0 <= new <= old)
         (used_values v) (used_values (pa_volume_ b)).
Proof.
  intros b.
  assert (Hnn : Forall (fun x => 0 <= x) (used_values (pa_volume_ b))).
  { simpl. repeat constructor; lia. }
  destruct (decrease_never_raises (F64.of_Z 10) 100 b eq_refl eq_refl
              ltac:(simpl; lia) Hnn) as (v & Hv & _ & Hall & _).
  exists v. split; [exact Hv|].
  eapply Forall2_impl; [exact Hall|]. intros x y H. exact (proj1 H).
Defined.

(** X17.  An increase that is submitted, when the amount of the
    increase fits below the absolute maximum, never lowers a channel:
    each valid channel gains exactly that amount, or stops at
    [PA_VOLUME_MAX]; so two channels that are not capped keep their
    distance. *)
Theorem increase_never_lowers
  (step : spec_float) (max_volume : Z) (b : AudioBackend) :
  context_ready b = true ->
  stored_volume_usable b = true ->
  volume_ b < clamped_max max_volume ->
  Forall (fun x => 0 <= x) (used_values (pa_volume_ b)) ->
  increase_change (volume_ b) step (clamped_max max_volume) <= PA_VOLUME_MAX ->
  exists v,
    snd (changeVolume_ChangeType Increase step max_volume b) = submit_volume b v
    /\ channels v = channels (pa_volume_ b)
    /\ Forall2 (fun new old =>
                  old <= new
                  /\ new = Z.min (old + increase_change (volume_ b) step
                                          (clamped_max max_volume))
                             PA_VOLUME_MAX)
         (used_values v) (used_values (pa_volume_ b)).
Proof.
  intros Hready Hu Hlt Hnn Hfit.
  rewrite (step_increase step max_volume b Hready Hu Hlt).
  eexists. split; [reflexivity|]. split; [reflexivity|].
  rewrite used_values_for_each_channel.
  assert (Hvalid : Forall (fun x => x <= PA_VOLUME_MAX)
                     (used_values (pa_volume_ b))).
  { unfold stored_volume_usable in Hu. apply andb_true_iff in Hu as [Hv _].
    unfold pa_cvolume_valid in Hv. apply andb_true_iff in Hv as [_ Hv].
    apply Forall_forall. intros x Hx.
    rewrite forallb_forall in Hv.
    apply list_elem_of_In in Hx. specialize (Hv x Hx).
    unfold PA_VOLUME_IS_VALID in Hv. now apply Z.leb_le. }
  apply Forall2_fmap_l, Forall_Forall2_diag.
  assert (Hboth : Forall (fun x => 0 <= x /\ x <= PA_VOLUME_MAX)
                    (used_values (pa_volume_ b))).
  { apply Forall_and. split; assumption. }
  eapply Forall_impl; [exact Hboth|]. intros x [Hx0 Hx1].
  unfold compose. cbv beta in *.
  assert (Hc : 0 <= increase_change (volume_ b) step (clamped_max max_volume))
    by (unfold increase_change, uint32_of_float;
        apply to_unsigned_range; lia).
  unfold wrap32. unfold PA_VOLUME_MAX, UINT32_MAX in *.
  change (4294967295 / 2) with 2147483647 in *.
  rewrite Z.mod_small by (change (2 ^ 32) with 4294967296; lia).
  lia.
Qed.

Lemma increase_never_lowers_witness :
  let b := fst (sinkInfoCb (Some (Examples.sink "X" "Speakers" PA_SINK_RUNNING
                                    (Examples.stereo 20000 40000)))
                  Examples.announced) in
  exists v,
    snd (changeVolume_ChangeType Increase (F64.of_Z 5) 100 b)
    = submit_volume b v
    /\ Forall2 (fun new old => old <= new)
         (used_values v) (used_values (pa_volume_ b)).
Proof.
  intros b.
  assert (Hnn : Forall (fun x => 0 <= x) (used_values (pa_volume_ b))).
  { vm_compute. repeat constructor; discriminate. }
  assert (Hfit : increase_change (volume_ b) (F64.of_Z 5) (clamped_max 100)
                 <= PA_VOLUME_MAX) by (vm_compute; discriminate).
  destruct (increase_never_lowers (F64.of_Z 5) 100 b
              ltac:(vm_compute; reflexivity) ltac:(vm_compute; reflexivity)
              ltac:(vm_compute; reflexivity) Hnn Hfit)
    as (v & Hv & _ & Hall).
  exists v. split; [exact Hv|].
  eapply Forall2_impl; [exact Hall|]. intros x y H. exact (proj1 H).
Defined.

(** X18.  The structure the relative step submits when it has no
    usable stored structure is a valid two-channel structure whose
    percentage, as the sink callback computes it, is the current
    [volume_]: handed back by the server it leaves the shown percentage
    as it is and gives the backend a usable stored structure. *)
Theorem bootstrap_echo_keeps_percentage
  (change_type : ChangeType) (step : spec_float) (max_volume : Z)
  (b : AudioBackend) :
  context_ready b = true ->
  stored_volume_usable b = false ->
  0 <= volume_ b < 65536 ->
  exists v,
    requests (snd (changeVolume_ChangeType change_type step max_volume b))
    = [pa_context_set_sink_volume_by_index (sink_idx_ b) v cb_volumeModifyCb]
    /\ pa_cvolume_valid v = true
    /\ channels v = 2
    /\ percent_of_native (pa_cvolume_avg v) = volume_ b
    /\ (forall i b', si_volume i = v ->
          volume_ (fst (copy_sink i b')) = volume_ b
          /\ stored_volume_usable (fst (copy_sink i b')) = true).
Proof.
  intros Hready Hun Hrange.
  destruct (roundtrip_exact (volume_ b) Hrange) as [Hvol Hrt].
  set (v0 := {| channels := 2; values := values pa_cvolume_init |}).
  destruct (pa_cvolume_avg_uniform (native_of_percent (volume_ b)) v0
              eq_refl eq_refl Hvol) as [Hvalid Havg].
  exists (for_each_channel (fun _ => native_of_percent (volume_ b)) v0).
  split.
  { unfold changeVolume_ChangeType. rewrite Hready, Hun. reflexivity. }
  split; [exact Hvalid|]. split; [reflexivity|].
  split; [rewrite Havg; exact Hrt|].
  intros i b' Hi. unfold copy_sink. rewrite Hi, Hvalid. simpl.
  rewrite Havg. split; [exact Hrt|].
  unfold stored_volume_usable. simpl. rewrite Hvalid. reflexivity.
Qed.

Lemma bootstrap_echo_keeps_percentage_witness :
  let b := set_volume_ 37 Examples.announced in
  exists v,
    requests (snd (changeVolume_ChangeType Increase (F64.of_Z 5) 100 b))
    = [pa_context_set_sink_volume_by_index 0 v cb_volumeModifyCb]
    /\ percent_of_native (pa_cvolume_avg v) = 37.
Proof.
  intros b.
  destruct (bootstrap_echo_keeps_percentage Increase (F64.of_Z 5) 100 b
              eq_refl eq_refl ltac:(simpl; lia))
    as (v & Hreq & _ & _ & Hp & _).
  exists v. split; [exact Hreq | exact Hp].
Defined.

(** ** Connection management *)

Lemma facility_range (type : Z) :
  0 <= Z.land type PA_SUBSCRIPTION_EVENT_FACILITY_MASK < 16.
Proof.
  unfold PA_SUBSCRIPTION_EVENT_FACILITY_MASK.
  change 15 with (Z.ones 4). rewrite Z.land_ones by lia.
  apply Z.mod_pos_bound. lia.
Qed.

(** X19.  The subscription made when the connection becomes ready and
    the dispatch of events agree: an event leads to a request exactly
    when it is a CHANGE event whose facility the subscribed mask selects.
    Every subscribed facility is handled, and no facility is handled
    that was not subscribed. *)
Theorem subscribed_facilities_are_handled
  (type idx m : Z) (o : pa_outcomes) (b b' : AudioBackend)
  (t : list conn_effect) :
  contextStateCb PA_CONTEXT_READY o b = Returned b' t ->
  In (pa_context_subscribe m) t ->
  requests (snd (subscribeCb type idx b)) <> []
  <-> (Z.land type PA_SUBSCRIPTION_EVENT_TYPE_MASK = PA_SUBSCRIPTION_EVENT_CHANGE
       /\ pa_subscription_match_flags m type = true).
Proof.
  simpl. intros [= <- <-] Hin.
  assert (Hm : m = subscription_mask).
  { simpl in Hin. destruct Hin as [H|[H|[H|[]]]]; try discriminate H.
    injection H as <-. reflexivity. }
  subst m. clear Hin.
  pose proof (facility_range type) as Hf.
  unfold subscribeCb, pa_subscription_match_flags.
  set (f := Z.land type PA_SUBSCRIPTION_EVENT_FACILITY_MASK) in *.
  clearbody f.
  destruct (Z.eqb_spec (Z.land type PA_SUBSCRIPTION_EVENT_TYPE_MASK)
              PA_SUBSCRIPTION_EVENT_CHANGE) as [Hop|Hop]; simpl negb; cbv iota.
  2: { simpl. split; [intros H; now contradiction H | intros [H _]; contradiction]. }
  assert (Hcases : f = 0 \/ f = 1 \/ f = 2 \/ f = 3 \/ f = 4 \/ f = 5 \/ f = 6
                   \/ f = 7 \/ f = 8 \/ f = 9 \/ f = 10 \/ f = 11 \/ f = 12
                   \/ f = 13 \/ f = 14 \/ f = 15) by lia.
  repeat (destruct Hcases as [-> | Hcases]); try subst f;
    (split;
     [ intros H;
       first [ split; [exact Hop | vm_compute; reflexivity]
             | exfalso; apply H; vm_compute; reflexivity ]
     | intros [_ H];
       first [ vm_compute in H; discriminate H | vm_compute; discriminate ] ]).
Qed.

Lemma subscribed_facilities_are_handled_witness :
  let source_change :=
    Z.lor PA_SUBSCRIPTION_EVENT_SOURCE PA_SUBSCRIPTION_EVENT_CHANGE in
  let o := {| mainloop_new_ok := true; context_new_ok := true;
              connect_error := None; connected_state := PA_CONTEXT_CONNECTING;
              mainloop_start_ok := true |} in
  requests (snd (subscribeCb source_change 4 Examples.fresh)) <> []
  <-> (Z.land source_change PA_SUBSCRIPTION_EVENT_TYPE_MASK
       = PA_SUBSCRIPTION_EVENT_CHANGE
       /\ pa_subscription_match_flags subscription_mask source_change = true).
Proof.
  intros source_change o.
  apply (subscribed_facilities_are_handled source_change 4 subscription_mask o
           Examples.fresh Examples.fresh _ eq_refl).
  simpl. auto.
Defined.

(** X20.  Whenever the state callback returns, the whole snapshot and
    the ignore list are as before; only the connection handle can have
    changed, and that only on FAILED, where the old handle (if any) is
    disconnected and a new context is created and connected.  The
    subscription and the first server info request are made on READY and
    in no other state; TERMINATED is the only state that stops the loop. *)
Theorem contextStateCb_returned
  (st : pa_context_state_t) (o : pa_outcomes) (b b' : AudioBackend)
  (t : list conn_effect) :
  contextStateCb st o b = Returned b' t ->
  b' = set_context_ (context_ b') b
  /\ (st <> PA_CONTEXT_FAILED -> b' = b)
  /\ (st = PA_CONTEXT_FAILED ->
      context_ b' = Some (connected_state o)
      /\ t = ((match context_ b with
               | Some _ => [pa_context_disconnect]
               | None => []
               end)
              ++ [pa_context_new "waybar"; pa_context_set_state_callback;
                  pa_context_connect PA_CONTEXT_NOFAIL])%list)
  /\ (In (pa_context_subscribe subscription_mask) t <-> st = PA_CONTEXT_READY)
  /\ (In (api (pa_context_get_server_info cb_serverInfoCb)) t
      <-> st = PA_CONTEXT_READY)
  /\ (In (mainloop_api_quit 0) t <-> st = PA_CONTEXT_TERMINATED).
Proof.
  destruct st; simpl; try (intros [= <- <-]; destruct b;
    repeat split; try discriminate; try reflexivity;
    try (intros H; simpl in H; intuition discriminate);
    try (intros H; simpl; auto)).
  unfold connectContext.
  destruct (context_new_ok o); simpl; [|discriminate].
  destruct (connect_error o); [discriminate|].
  intros [= <- <-]. destruct b as [c ? ? ? ? ? ? ? ? ? ? ? ? ? ? ? ? ? ? ?].
  simpl. repeat split; try discriminate; try reflexivity;
    try (intros H; exfalso; apply H; reflexivity);
    try (intros H; apply in_app_or in H; destruct H as [H|H];
         [destruct c; simpl in H; intuition discriminate
         | simpl in H; intuition discriminate]).
Qed.

Lemma contextStateCb_returned_witness :
  let o := {| mainloop_new_ok := true; context_new_ok := true;
              connect_error := None; connected_state := PA_CONTEXT_CONNECTING;
              mainloop_start_ok := true |} in
  let b := Examples.with_context (Some PA_CONTEXT_FAILED) Examples.announced in
  exists b' t,
    contextStateCb PA_CONTEXT_FAILED o b = Returned b' t
    /\ context_ b' = Some PA_CONTEXT_CONNECTING
    /\ default_sink_name b' = "X".
Proof.
  intros o b. eexists. eexists. split; [reflexivity|].
  match goal with
  | |- context_ ?x = _ /\ _ =>
      destruct (contextStateCb_returned PA_CONTEXT_FAILED o b x _ eq_refl)
        as (_ & _ & Hf & _)
  end.
  split; [exact (proj1 (Hf eq_refl)) | reflexivity].
Defined.

(** X21.  The state callback throws only while reconnecting after
    FAILED and only because the library failed: when the new context
    could not be allocated (the handle is then null) or when
    [pa_context_connect] reported an error, whose text ends the
    message. *)
Theorem contextStateCb_thrown
  (st : pa_context_state_t) (o : pa_outcomes) (b : AudioBackend) :
  (exists what b' t, contextStateCb st o b = Thrown what b' t)
  <-> st = PA_CONTEXT_FAILED
      /\ (context_new_ok o = false \/ connect_error o <> None).
Proof.
  split.
  - intros (what & b' & t & H).
    destruct st; simpl in H; try discriminate H.
    split; [reflexivity|]. unfold connectContext in H.
    destruct (context_new_ok o); [|now left]. simpl in H.
    destruct (connect_error o); [right; discriminate | discriminate H].
  - intros [-> Hfail]. simpl. unfold connectContext.
    destruct (context_new_ok o) eqn:Hnew; simpl.
    + destruct Hfail as [H|H]; [discriminate H|].
      destruct (connect_error o); [|contradiction].
      eexists. eexists. eexists. reflexivity.
    + eexists. eexists. eexists. reflexivity.
Qed.

(** X22.  The constructor returns exactly when the four library calls
    succeed.  The backend it returns shows 0 percent and unmuted for
    sink and source, holds the initial channel-volume structure and a
    non-null connection handle, and the lock taken during construction
    has been released.  When it throws after the lock was taken, the
    lock is never released. *)
Theorem constructor_outcome (o : pa_outcomes) (raw : AudioBackend) :
  ((exists b t, AudioBackend_constructor o raw = Returned b t)
   <-> mainloop_new_ok o = true /\ context_new_ok o = true
       /\ connect_error o = None /\ mainloop_start_ok o = true)
  /\ (forall b t, AudioBackend_constructor o raw = Returned b t ->
        constructed b /\ muted_ b = false
        /\ source_volume_ b = 0 /\ source_muted_ b = false
        /\ context_ b = Some (connected_state o)
        /\ In (api pa_threaded_mainloop_lock) t
        /\ last t = Some (api pa_threaded_mainloop_unlock))
  /\ (forall what b t, AudioBackend_constructor o raw = Thrown what b t ->
        ~ In (api pa_threaded_mainloop_unlock) t
        /\ (In (api pa_threaded_mainloop_lock) t <-> mainloop_new_ok o = true)).
Proof.
  unfold AudioBackend_constructor, connectContext.
  destruct (mainloop_new_ok o), (context_new_ok o), (connect_error o),
    (mainloop_start_ok o); simpl; (split; [|split]);
    try (split; [intros (b & t & H); discriminate H
                | intros (H1 & H2 & H3 & H4); discriminate]);
    try (split; [intros _; auto | intros _; eexists; eexists; reflexivity]);
    try (intros b t H; discriminate H);
    try (intros what b t H; discriminate H);
    try (intros b t [= <- <-]; repeat split; simpl; auto);
    try (intros what b t [= <- <- <-]; split;
         [simpl; intuition discriminate
         | simpl; split; [intros _; reflexivity | intros _; auto]]);
    try (intros what b t [= <- <- <-]; split;
         [simpl; intuition discriminate
         | simpl; split; [intuition discriminate | discriminate]]).
Qed.

Lemma constructor_outcome_witness :
  let o := {| mainloop_new_ok := true; context_new_ok := true;
              connect_error := Some "Connection refused";
              connected_state := PA_CONTEXT_FAILED;
              mainloop_start_ok := true |} in
  exists b t,
    AudioBackend_constructor o Examples.announced
    = Thrown "pa_context_connect() failed: Connection refused" b t
    /\ In (api pa_threaded_mainloop_lock) t
    /\ ~ In (api pa_threaded_mainloop_unlock) t.
Proof.
  intros o. eexists. eexists. split; [reflexivity|].
  match goal with
  | |- In _ ?t /\ _ =>
      destruct (constructor_outcome o Examples.announced) as (_ & _ & Hthrown);
      destruct (Hthrown _ _ t eq_refl) as [Hno Hlock]
  end.
  split; [apply Hlock; reflexivity | exact Hno].
Defined.

(** ** Repeated deliveries *)

(** X23.  Delivering the same sink descriptor twice in a row leaves the
    backend as the first delivery left it, for every descriptor and
    every state: a descriptor that arrives both through a list request
    and through a request by index does no further change. *)
Theorem sinkInfoCb_idempotent (i : option pa_sink_info) (b : AudioBackend) :
  fst (sinkInfoCb i (fst (sinkInfoCb i b))) = fst (sinkInfoCb i b).
Proof.
  destruct i as [i|]; [|reflexivity].
  destruct (in_dec String.string_dec (si_description i) (ignored_sinks_ b))
    as [Hin|Hn].
  - assert (E1 : fst (sinkInfoCb (Some i) b)
                 = if String.eqb (si_name i) (current_sink_name_ b)
                   then set_current_sink_running_ false b else b)
      by (rewrite (sinkInfoCb_ignored i b Hin); reflexivity).
    rewrite E1.
    destruct (String.eqb (si_name i) (current_sink_name_ b)) eqn:He.
    + rewrite (sinkInfoCb_ignored i (set_current_sink_running_ false b) Hin).
      cbn [fst]. simpl current_sink_name_. rewrite He. reflexivity.
    + rewrite E1. reflexivity.
  - assert (Hn' : ~ In (si_description i)
                    (ignored_sinks_ (fst (sinkInfoCb (Some i) b))))
      by (rewrite sinkInfoCb_ignored_sinks; exact Hn).
    destruct (String.string_dec (si_name i) (default_sink_name b)) as [He|Hne].
    + assert (He' : si_name i = default_sink_name (fst (sinkInfoCb (Some i) b)))
        by (rewrite sinkInfoCb_default_sink_name; exact He).
      destruct (sinkInfoCb_default_fst i _ Hn' He') as [H2 _].
      destruct (sinkInfoCb_default_fst i b Hn He) as [H1 _].
      cbv zeta in H1, H2. rewrite H2. clear H2.
      set (r := fst (sinkInfoCb (Some i) b)) in *. clearbody r. subst r.
      unfold copy_sink.
      destruct (String.eqb (current_sink_name_ b) (si_name i)) eqn:Hc;
        destruct (sink_active (si_state i)) eqn:Ha;
        destruct (current_sink_running_ b) eqn:Hr;
        destruct (pa_cvolume_valid (si_volume i)) eqn:Hv;
        repeat (progress (cbn [fst snd negb andb current_sink_running_
                               current_sink_name_ set_current_sink_running_
                               set_current_sink_name_ set_default_sink_running_
                               set_sink_strings set_muted_ set_volume_
                               set_sink_idx_ set_pa_volume_];
                          rewrite ?String.eqb_refl, ?Hc, ?Hv, ?Hr));
        reflexivity.
    + assert (Hne' : si_name i
                     <> default_sink_name (fst (sinkInfoCb (Some i) b)))
        by (rewrite sinkInfoCb_default_sink_name; exact Hne).
      destruct (sinkInfoCb_non_default i _ Hn' Hne') as [H2 _].
      destruct (sinkInfoCb_non_default i b Hn Hne) as [H1 _].
      rewrite H2, H1. reflexivity.
Qed.

(** ** Targets outside the bounds *)

Lemma std_clamp_idempotent (v lo hi : Z) :
  lo <= hi -> std_clamp (std_clamp v lo hi) lo hi = std_clamp v lo hi.
Proof.
  intros Hle. unfold std_clamp.
  destruct (Z.ltb_spec v lo) as [H1|H1].
  - destruct (Z.ltb_spec lo lo); [lia|].
    destruct (Z.ltb_spec hi lo); [lia | reflexivity].
  - destruct (Z.ltb_spec hi v) as [H2|H2].
    + destruct (Z.ltb_spec hi lo); [lia|].
      destruct (Z.ltb_spec hi hi); [lia | reflexivity].
    + destruct (Z.ltb_spec v lo); [lia|].
      destruct (Z.ltb_spec hi v); [lia | reflexivity].
Qed.

(** X24.  With ordered bounds, the absolute overload treats a target
    outside the bounds exactly like the bound it exceeds: every target
    above [max_volume] behaves as [max_volume], every target below
    [min_volume] as [min_volume], in every state, in what is submitted
    and logged alike; and the call never changes the backend, so the
    shown percentage moves only when the server answers. *)
Theorem changeVolume_saturates
  (volume min_volume max_volume : Z) (b : AudioBackend) :
  min_volume <= max_volume ->
  changeVolume volume min_volume max_volume b
  = changeVolume (std_clamp volume min_volume max_volume)
      min_volume max_volume b
  /\ (max_volume <= volume ->
      changeVolume volume min_volume max_volume b
      = changeVolume max_volume min_volume max_volume b)
  /\ (volume <= min_volume ->
      changeVolume volume min_volume max_volume b
      = changeVolume min_volume min_volume max_volume b)
  /\ fst (changeVolume volume min_volume max_volume b) = b.
Proof.
  intros Hle.
  assert (Hkey : forall w, std_clamp w min_volume max_volume
                           = std_clamp volume min_volume max_volume ->
                   changeVolume volume min_volume max_volume b
                   = changeVolume w min_volume max_volume b).
  { intros w Hw. unfold changeVolume. rewrite Hw. reflexivity. }
  split; [apply Hkey, std_clamp_idempotent; exact Hle|].
  split; [|split].
  - intros Hge. apply Hkey. unfold std_clamp.
    destruct (Z.ltb_spec max_volume min_volume); [lia|].
    destruct (Z.ltb_spec max_volume max_volume); [lia|].
    destruct (Z.ltb_spec volume min_volume); [lia|].
    destruct (Z.ltb_spec max_volume volume); lia.
  - intros Hge. apply Hkey. unfold std_clamp.
    destruct (Z.ltb_spec min_volume min_volume); [lia|].
    destruct (Z.ltb_spec max_volume min_volume); [lia|].
    destruct (Z.ltb_spec volume min_volume); [lia|].
    destruct (Z.ltb_spec max_volume volume); lia.
  - unfold changeVolume. destruct (negb (context_ready b)); [reflexivity|].
    destruct (stored_volume_usable b); reflexivity.
Qed.

Lemma changeVolume_saturates_witness :
  changeVolume 250 0 100 Examples.announced
  = changeVolume 100 0 100 Examples.announced.
Proof.
  destruct (changeVolume_saturates 250 0 100 Examples.announced ltac:(lia))
    as (_ & Hhi & _).
  apply Hhi. lia.
Defined.


(** ** The absolute volume set and its read-back *)

(** C6.  For 16-bit [target], [min_volume], [max_volume] with
    [min_volume <= max_volume]: on a ready connection [changeVolume]
    submits one structure for [sink_idx_]; when the server hands that
    structure back in a descriptor, the percentage the sink callback
    commits to [volume_] (in the copying block, and so in [sinkInfoCb]
    for the current default sink) lies in [[min_volume, max_volume]]
    and is within 1 of the clamped target. *)
Theorem setVolume_roundtrip
  (target min_volume max_volume : Z) (b : AudioBackend) :
  0 <= target < 65536 -> 0 <= min_volume -> max_volume < 65536 ->
  min_volume <= max_volume ->
  context_ready b = true -> cvolume_wf (pa_volume_ b) ->
  let p := std_clamp target min_volume max_volume in
  exists v,
    requests (snd (changeVolume target min_volume max_volume b))
    = [pa_context_set_sink_volume_by_index (sink_idx_ b) v cb_volumeModifyCb]
    /\ (forall i b', si_volume i = v ->
          let r := volume_ (fst (copy_sink i b')) in
          min_volume <= r <= max_volume /\ p - 1 <= r <= p + 1)
    /\ (forall i b', si_volume i = v ->
          ~ In (si_description i) (ignored_sinks_ b') ->
          si_name i = default_sink_name b' ->
          current_sink_name_ b' = default_sink_name b' ->
          let r := volume_ (fst (sinkInfoCb (Some i) b')) in
          min_volume <= r <= max_volume /\ p - 1 <= r <= p + 1).
Proof.
  intros Ht Hmin Hmax Hle Hready Hwf p.
  pose proof (std_clamp_range target min_volume max_volume Hle) as Hp.
  fold p in Hp.
  destruct (roundtrip_exact p ltac:(lia)) as [Hvol Hrt].
  destruct (pa_cvolume_avg_uniform (native_of_percent p) (base_volume b)
              (base_volume_wf b Hwf) (base_volume_channels_valid b) Hvol)
    as [Hvalid Havg].
  exists (for_each_channel (fun _ => native_of_percent p) (base_volume b)).
  assert (Hcopy : forall i b', si_volume i
                               = for_each_channel
                                   (fun _ => native_of_percent p) (base_volume b) ->
                    volume_ (fst (copy_sink i b')) = p).
  { intros i b' Hi. unfold copy_sink. rewrite Hi, Hvalid. simpl.
    rewrite Havg. exact Hrt. }
  split; [|split].
  - unfold changeVolume, base_volume. rewrite Hready. simpl negb. cbv iota.
    fold p. destruct (stored_volume_usable b); reflexivity.
  - intros i b' Hi. cbv zeta. rewrite (Hcopy i b' Hi). lia.
  - intros i b' Hi Hn Hname Hcur. cbv zeta.
    destruct (sinkInfoCb_current_default i b' Hn Hname Hcur) as [line Heq].
    rewrite Heq. cbn [fst]. rewrite (Hcopy i _ Hi). lia.
Qed.

(** Target 130 with bounds 0 and 100: what is submitted comes back in
    the default sink's descriptor and shows between 0 and 100. *)
Lemma setVolume_roundtrip_witness :
  let b := Examples.announced in
  (0 <= 130 < 65536 /\ 0 <= 0 /\ 100 < 65536 /\ 0 <= 100)
  /\ context_ready b = true /\ cvolume_wf (pa_volume_ b)
  /\ exists v,
      requests (snd (changeVolume 130 0 100 b))
      = [pa_context_set_sink_volume_by_index (sink_idx_ b) v cb_volumeModifyCb]
      /\ 0 <= volume_ (fst (sinkInfoCb
                               (Some (Examples.sink "X" "Speakers" PA_SINK_IDLE v))
                               b)) <= 100.
Proof.
  intros b.
  assert (Hready : context_ready b = true) by reflexivity.
  assert (Hwf : cvolume_wf (pa_volume_ b)) by reflexivity.
  split; [lia|]. split; [exact Hready|]. split; [exact Hwf|].
  destruct (setVolume_roundtrip 130 0 100 b ltac:(lia) ltac:(lia) ltac:(lia)
              ltac:(lia) Hready Hwf) as (v & Hreq & _ & Hsink).
  exists v. split; [exact Hreq|].
  refine (proj1 (Hsink (Examples.sink "X" "Speakers" PA_SINK_IDLE v) b
                   eq_refl _ eq_refl eq_refl)).
  simpl. tauto.
Defined.
